(** * pyhdlsim: a shallow embedding of [src/pyhdlsim.py]

    The module drives HDL simulators: it builds command lines and tool
    scripts, supervises the child process and scans its output.  The
    embedding keeps the layout of the Python file: helper functions first,
    then the [Simulator] class with its process runner and its three tool
    adapters.

    Conventions.
    - A Python [str] is a [list ascii] (type [str]); literals are written
      [s["..."]]; a character is a code point below 256, and the white
      space of [str.strip] and [str.split] is [str.isspace] on that range.
    - Python integers are [Z].
    - Paths follow the POSIX flavour of [pathlib].
    - An exception is a value of [exn]; a function that may raise returns
      its result next to the state it leaves behind. *)

From Stdlib Require Import Ascii String List ZArith NArith Lia Bool Arith.
Import ListNotations.

(** ** Python strings *)

Definition str := list ascii.

Notation "s[ x ]" := (list_ascii_of_string x%string) (at level 0, format "s[ x ]").

(** The line feed and the double quote, which string literals do not
    hold. *)
Definition LF : ascii := "010"%char.
Definition DQ : ascii := "034"%char.

Module PyStr.

Definition eqb (a b : str) : bool :=
  if list_eq_dec ascii_dec a b then true else false.

(** [s.startswith(p)] *)
Fixpoint startswith (p s : str) : bool :=
  match p, s with
  | [], _ => true
  | _ :: _, [] => false
  | a :: p', b :: s' => Ascii.eqb a b && startswith p' s'
  end.

(** [needle in hay] on strings: substring containment. *)
Fixpoint contains (needle hay : str) : bool :=
  startswith needle hay ||
  match hay with
  | [] => false
  | _ :: hay' => contains needle hay'
  end.

(** [hay.replace(old, '')]: every non-overlapping occurrence of [old],
    found from the left, is dropped.  [skip] counts the characters of an
    occurrence that are still to be dropped. *)
Fixpoint remove_from (old : str) (skip : nat) (hay : str) : str :=
  match hay with
  | [] => []
  | c :: hay' =>
      match skip with
      | S k => remove_from old k hay'
      | O => if startswith old hay
             then remove_from old (length old - 1) hay'
             else c :: remove_from old 0 hay'
      end
  end.

Definition remove_all (old hay : str) : str :=
  match old with
  | [] => hay
  | _ :: _ => remove_from old 0 hay
  end.

(** [str.isspace] on the code points below 256: TAB, LF, VT, FF, CR, FS,
    GS, RS, US, the space, NEL (133) and the no-break space (160). *)
Definition is_space (c : ascii) : bool :=
  let n := nat_of_ascii c in
  ((9 <=? n) && (n <=? 13)) || ((28 <=? n) && (n <=? 32))
  || (n =? 133) || (n =? 160).

Fixpoint lstrip (s : str) : str :=
  match s with
  | c :: s' => if is_space c then lstrip s' else s
  | [] => []
  end.

Definition rstrip (s : str) : str := rev (lstrip (rev s)).

(** [s.strip()] *)
Definition strip (s : str) : str := rstrip (lstrip s).

(** [s.split()]: the maximal runs of characters that are not white
    space.  [cur] is the run being read, reversed. *)
Fixpoint split_go (cur : str) (s : str) : list str :=
  match s with
  | [] => match cur with [] => [] | _ => [rev cur] end
  | c :: s' =>
      if is_space c
      then match cur with
           | [] => split_go [] s'
           | _ => rev cur :: split_go [] s'
           end
      else split_go (c :: cur) s'
  end.

Definition split (s : str) : list str := split_go [] s.

(** [s.split(sep)] for a one-character separator: never empty. *)
Fixpoint split_on (sep : ascii) (s : str) : list str :=
  match s with
  | [] => [[]]
  | c :: s' =>
      if Ascii.eqb c sep then [] :: split_on sep s'
      else match split_on sep s' with
           | [] => [[c]]
           | p :: ps => (c :: p) :: ps
           end
  end.

(** [sep.join(parts)] *)
Fixpoint join (sep : str) (parts : list str) : str :=
  match parts with
  | [] => []
  | [p] => p
  | p :: ps => p ++ sep ++ join sep ps
  end.

(** [s.rfind(c)] for a character, [None] for -1. *)
Fixpoint rfind (c : ascii) (s : str) : option nat :=
  match s with
  | [] => None
  | x :: s' =>
      match rfind c s' with
      | Some i => Some (S i)
      | None => if Ascii.eqb x c then Some 0 else None
      end
  end.

End PyStr.

(** ** Module-level helpers *)

(** A parsed path: its components.  The path parser of [pathlib] drops
    empty components and [.]. *)
Definition path := list str.

Definition parse_path (filepath : str) : path :=
  filter (fun part => negb (PyStr.eqb part []) && negb (PyStr.eqb part s["."]))
         (PyStr.split_on "/" filepath).

(** [PurePath.name]: the last component, [''] when there is none. *)
Definition path_name (filepath : str) : str := last (parse_path filepath) [].

(** [PurePath.suffix]:
    [i = name.rfind('.'); return name[i:] if 0 < i < len(name) - 1 else ''] *)
Definition path_suffix (name : str) : str :=
  match PyStr.rfind "." name with
  | Some i => if (0 <? i) && (i <? length name - 1) then skipn i name else []
  | None => []
  end.

(** [file_ext(filepath)] *)
Definition file_ext (filepath : str) : str := path_suffix (path_name filepath).

(** [get_define(name, defines)]:
    [next(d for d in defines if name in d).split('=')[-1]], [None] when the
    generator is exhausted. *)
Definition get_define (name : str) (defines : list str) : option str :=
  match find (fun d => PyStr.contains name d) defines with
  | Some d => Some (last (PyStr.split_on "=" d) [])
  | None => None
  end.

(** [get_param(name, params)]: the same lookup on the parameter list. *)
Definition get_param (name : str) (params : list str) : option str :=
  match find (fun d => PyStr.contains name d) params with
  | Some d => Some (last (PyStr.split_on "=" d) [])
  | None => None
  end.


(** [path_join]: the components of [other] are added to [base]. *)
Definition path_join (base : path) (other : str) : path := base ++ parse_path other.

(** ** Exceptions *)

(** The command handed to [subprocess.Popen]: one string, or the list that
    [str.split] makes of it. *)
Inductive command :=
| CmdString (line : str)
| CmdList (words : list str).

(** The exceptions the module raises, and those of [pathlib] it lets
    through.  [RuntimeError] carries the two values that are formatted into
    its message ["Execution failed at '%s' with return code %d!"]. *)
Inductive exn :=
| ValueError (msg : str)
| AssertionError (output : str) (defines : list str)
| RuntimeError (exec_str : command) (retcode : Z)
| FileExistsError
| FileNotFoundError
| NotADirectoryError
| DirectoryNotEmpty
| RootBusy
| KeyError (key : str).

(** ** The file system seen by workspace setup *)

(** A directory entry is a regular file, a directory, or something that
    exists and is neither for [is_file] and [is_dir] (a FIFO, a socket, a
    device).  Symbolic links are not part of the model: a link to a regular
    file is removed like a regular file by this code and counts as [File];
    a link to a directory and a dangling link have no node, and what is
    proved below about a failing removal is not stated for them. *)
Inductive node :=
| File
| Special
| Dir (entries : dirents)
with dirents :=
| dnil
| dcons (name : str) (n : node) (rest : dirents).

Scheme node_dirents_ind := Induction for node Sort Prop
  with dirents_node_ind := Induction for dirents Sort Prop.
Combined Scheme node_dirents_mutind from node_dirents_ind, dirents_node_ind.

(** The state of the file system: the entries of the root directory. *)
Definition fs := dirents.

Fixpoint d_lookup (nm : str) (es : dirents) : option node :=
  match es with
  | dnil => None
  | dcons k n rest => if PyStr.eqb k nm then Some n else d_lookup nm rest
  end.

Fixpoint d_set (nm : str) (new : node) (es : dirents) : dirents :=
  match es with
  | dnil => dnil
  | dcons k n rest =>
      if PyStr.eqb k nm then dcons k new rest else dcons k n (d_set nm new rest)
  end.

Fixpoint d_del (nm : str) (es : dirents) : dirents :=
  match es with
  | dnil => dnil
  | dcons k n rest =>
      if PyStr.eqb k nm then d_del nm rest else dcons k n (d_del nm rest)
  end.

Fixpoint d_snoc (es : dirents) (nm : str) (new : node) : dirents :=
  match es with
  | dnil => dcons nm new dnil
  | dcons k n rest => dcons k n (d_snoc rest nm new)
  end.

(** What a path names, starting from a node and from the root. *)
Fixpoint resolve_node (n : node) (p : path) : option node :=
  match p with
  | [] => Some n
  | nm :: p' =>
      match n with
      | Dir es =>
          match d_lookup nm es with
          | Some m => resolve_node m p'
          | None => None
          end
      | _ => None
      end
  end.

Definition resolve (es : dirents) (p : path) : option node := resolve_node (Dir es) p.

(** [remove_tree(dirpath)], on the node that [dirpath] names.  The result
    is what is left at [dirpath] ([None]: the directory is gone) and the
    exception that stopped the removal, if any.

    [[
    if p.exists() and p.is_dir():
        for child in p.glob('*'):
            if child.is_file(): child.unlink()
            else: remove_tree(child)
        p.rmdir()
    ]]
    [rmdir] refuses a directory that still has entries. *)
Fixpoint remove_node (n : node) : option node * option exn :=
  match n with
  | Dir es =>
      match remove_children es with
      | (kept, Some e) => (Some (Dir kept), Some e)
      | (dnil, None) => (None, None)
      | (kept, None) => (Some (Dir kept), Some DirectoryNotEmpty)
      end
  | _ => (Some n, None)
  end
with remove_children (es : dirents) : dirents * option exn :=
  match es with
  | dnil => (dnil, None)
  | dcons nm child rest =>
      match child with
      | File => remove_children rest
      | _ =>
          match remove_node child with
          | (None, _) => remove_children rest
          | (Some child', Some e) => (dcons nm child' rest, Some e)
          | (Some child', None) =>
              let '(kept, e) := remove_children rest in
              (dcons nm child' kept, e)
          end
      end
  end.

(** [remove_tree] at a path of the file system. *)
Fixpoint remove_tree (es : fs) (dirpath : path) : fs * option exn :=
  match dirpath with
  | [] =>
      match remove_children es with
      | (kept, Some e) => (kept, Some e)
      | (kept, None) => (kept, Some RootBusy)
      end
  | nm :: p' =>
      match d_lookup nm es with
      | None => (es, None)
      | Some n =>
          match p' with
          | [] =>
              match remove_node n with
              | (None, e) => (d_del nm es, e)
              | (Some n', e) => (d_set nm n' es, e)
              end
          | _ :: _ =>
              match n with
              | Dir sub =>
                  let '(sub', e) := remove_tree sub p' in
                  (d_set nm (Dir sub') es, e)
              | _ => (es, None)
              end
          end
      end
  end.

(** [make_dir(name)]: [Path(name).mkdir()], neither [parents] nor
    [exist_ok]. *)
Fixpoint make_dir (es : fs) (name : path) : fs * option exn :=
  match name with
  | [] => (es, Some FileExistsError)
  | nm :: p' =>
      match p', d_lookup nm es with
      | [], None => (d_snoc es nm (Dir dnil), None)
      | [], Some _ => (es, Some FileExistsError)
      | _ :: _, None => (es, Some FileNotFoundError)
      | _ :: _, Some (Dir sub) =>
          let '(sub', e) := make_dir sub p' in
          (d_set nm (Dir sub') es, e)
      | _ :: _, Some _ => (es, Some NotADirectoryError)
      end
  end.

(** The two statements under "Prepare working directory" in
    [Simulator.__init__]. *)
Definition workspace_setup (es : fs) (cwd : path) : fs * option exn :=
  match remove_tree es cwd with
  | (es1, Some e) => (es1, Some e)
  | (es1, None) => make_dir es1 cwd
  end.

(** ** The memory file writer *)

(** ['%x' % d]: lower-case hexadecimal digits, most significant first, a
    minus sign before the digits of a negative number. *)
Definition hex_digit (d : N) : ascii :=
  nth (N.to_nat d) s["0123456789abcdef"] "0"%char.

Fixpoint hex_digits (fuel : nat) (n : N) (acc : str) : str :=
  match fuel with
  | O => acc
  | S fuel' =>
      let acc' := hex_digit (n mod 16) :: acc in
      if (n / 16 =? 0)%N then acc' else hex_digits fuel' (n / 16) acc'
  end.

Definition hex_of_N (n : N) : str := hex_digits (S (N.to_nat (N.log2 n))) n [].

Definition format_x (d : Z) : str :=
  if (d <? 0)%Z then s["-"] ++ hex_of_N (Z.to_N (- d)) else hex_of_N (Z.to_N d).

(** The value of a string of hexadecimal digits, as [$readmemh] reads it;
    [None] when a character is not a digit. *)
Definition hex_value_of (c : ascii) : option N :=
  let n := N_of_ascii c in
  if ((48 <=? n) && (n <=? 57))%N then Some (n - 48)%N
  else if ((97 <=? n) && (n <=? 102))%N then Some (n - 87)%N
  else None.

Fixpoint parse_hex (acc : N) (s : str) : option N :=
  match s with
  | [] => Some acc
  | c :: s' =>
      match hex_value_of c with
      | Some d => parse_hex (16 * acc + d)%N s'
      | None => None
      end
  end.

(** The effects of the module on its surroundings, in the order they
    happen: lines printed on the console and text files written. *)
Inductive effect :=
| Print (line : str)
| WriteFile (file : path) (content : str).

(** The lines handed to [memfile.writelines]. *)
Definition memfile_lines (data : list Z) : list str :=
  map (fun d => format_x d ++ [LF]) data.

(** [write_memfile(path, data)]: the file is opened for writing and the
    lines are written one after the other. *)
Definition write_memfile (filepath : str) (data : list Z) : effect :=
  WriteFile (parse_path filepath) (concat (memfile_lines data)).

(** ** The simulator wrapper *)

Record Simulator := {
  gui : bool;
  cwd : path;
  name : str;
  worklib : str;
  top : str;
  sources : list str;
  defines : list str;
  params : list str;
  incdirs : list str;
  stdout : str;
  retcode : Z;
  sim_errors : list str
}.

Definition set_retcode (self : Simulator) (code : Z) : Simulator :=
  {| gui := gui self; cwd := cwd self; name := name self;
     worklib := worklib self; top := top self; sources := sources self;
     defines := defines self; params := params self; incdirs := incdirs self;
     stdout := stdout self; retcode := code; sim_errors := sim_errors self |}.

(** [str(path)] of an absolute path. *)
Definition path_str (p : path) : str := s["/"] ++ PyStr.join s["/"] p.

(** The value of [self.sim_errors]. *)
Definition fixed_markers : list str :=
  [s["$error : "]; s["Error: "]; s["ERROR: "]; s["Assertion error"]].

(** The keys of [self._runners]. *)
Definition runner_names : list str := [s["icarus"]; s["modelsim"]; s["vivado"]].

(** [Simulator.__init__(name, gui, cwd)].  [install_dir] is the directory
    of the module file, [cwd] is already resolved. *)
Definition Simulator_init (install_dir : path) (name : str) (gui : bool)
    (cwd : path) (es : fs) : fs * (exn + Simulator) :=
  if list_eq_dec (list_eq_dec ascii_dec) install_dir cwd
  then (es, inl (ValueError (s["Wrong working directory '"] ++ path_str cwd ++ s["'"])))
  else if negb (existsb (PyStr.eqb name) runner_names)
  then (es, inl (ValueError (s["Unknown simulator tool '"] ++ name ++ s["'"])))
  else
    let self :=
      {| gui := gui; cwd := cwd; name := name;
         worklib := s["worklib"]; top := s["top"];
         sources := []; defines := []; params := []; incdirs := [];
         stdout := []; retcode := 0%Z;
         sim_errors := fixed_markers |} in
    match workspace_setup es cwd with
    | (es', Some e) => (es', inl e)
    | (es', None) => (es', inr self)
    end.

(** [Simulator.get_define(name)] and [Simulator.get_param(name)] *)
Definition Simulator_get_define (self : Simulator) (nm : str) : option str :=
  get_define nm (defines self).

Definition Simulator_get_param (self : Simulator) (nm : str) : option str :=
  get_param nm (params self).

(** *** The process runner *)

(** A child process, as the runner observes it: what each call of
    [child.stdout.readline()] returns (decoded, with its line end) and
    whether the process has exited by then, so that [child.poll()] is not
    [None]; and the exit code.  Once the list is used up the stream is at
    its end, [readline] returns [''] and the process has exited.  A read of
    [''] before the process has exited is an element [([], false)].  The
    model covers the runs in which every line decodes and the loop ends:
    output that is not UTF-8, and a child that blocks because nobody reads
    its standard error, have no [child]; nothing below says that the
    outcomes of the model are the only ones. *)
Record child := {
  reads : list (str * bool);
  returncode : Z
}.

(** How the body of [while True] ends. *)
Record loop_result := {
  echoed : list str;        (* the lines printed, in order *)
  consumed : nat;           (* the number of calls of [readline] *)
  killed : bool;            (* [child.kill()] was called *)
  failure : option exn      (* the exception raised in the loop *)
}.

Definition loop_break : loop_result :=
  {| echoed := []; consumed := 1; killed := false; failure := None |}.

Definition loop_raise (e : exn) : loop_result :=
  {| echoed := []; consumed := 1; killed := true; failure := Some e |}.

Definition loop_next (output : str) (r : loop_result) : loop_result :=
  {| echoed := match output with [] => echoed r | _ => output :: echoed r end;
     consumed := S (consumed r);
     killed := killed r;
     failure := failure r |}.

(** The loop of [_exec]:
    [[
    while True:
        output = child.stdout.readline().decode('utf-8').strip()
        if output == '' and child.poll() is not None: break
        for err in self.sim_errors:
            if err in output:
                child.kill()
                output = output.replace(err,'')
                raise AssertionError(output, self.defines)
        if output: print(output)
    ]] *)
Fixpoint read_loop (self : Simulator) (rs : list (str * bool)) : loop_result :=
  match rs with
  | [] => loop_break
  | (raw, exited) :: rs' =>
      let output := PyStr.strip raw in
      if PyStr.eqb output [] && exited then loop_break
      else
        match find (fun err => PyStr.contains err output) (sim_errors self) with
        | Some err =>
            loop_raise (AssertionError (PyStr.remove_all err output) (defines self))
        | None => loop_next output (read_loop self rs')
        end
  end.

(** What [_exec] leaves behind. *)
Record exec_result := {
  self_after : Simulator;
  spawned : command;              (* the first argument of [Popen] *)
  console : list str;             (* everything printed *)
  lines_read : nat;
  child_killed : bool;
  raised : option exn
}.

(** [Simulator._exec(prog, args)] *)
Definition Simulator_exec (self : Simulator) (prog args : str) (c : child)
  : exec_result :=
  let exec_str := prog ++ s[" "] ++ args in
  let cmd := if PyStr.eqb (name self) s["vivado"]
             then CmdString exec_str
             else CmdList (PyStr.split exec_str) in
  let r := read_loop self (reads c) in
  match failure r with
  | Some e =>
      {| self_after := self; spawned := cmd; console := exec_str :: echoed r;
         lines_read := consumed r; child_killed := killed r; raised := Some e |}
  | None =>
      let self' := set_retcode self (returncode c) in
      {| self_after := self'; spawned := cmd; console := exec_str :: echoed r;
         lines_read := consumed r; child_killed := killed r;
         raised := if (returncode c =? 0)%Z then None
                   else Some (RuntimeError cmd (returncode c)) |}
  end.

(** *** The tool adapters *)

(** The first argument of [Popen] in [_exec]. *)
Definition exec_command (self : Simulator) (prog args : str) : command :=
  let exec_str := prog ++ s[" "] ++ args in
  if PyStr.eqb (name self) s["vivado"]
  then CmdString exec_str
  else CmdList (PyStr.split exec_str).

(** The argument string of the elaboration in [_run_icarus]. *)
Definition icarus_elab_args (self : Simulator) : str :=
  let elab_args := [] in
  let elab_args := elab_args ++
    PyStr.join s[" "] (map (fun incdir => s["-I "] ++ incdir) (incdirs self)) ++ s[" "] in
  let elab_args := elab_args ++
    PyStr.join s[" "] (map (fun define => s["-D "] ++ define) (defines self)) ++ s[" "] in
  let elab_args := elab_args ++
    (s["-g2005-sv -s "] ++ top self ++ s[" -o "] ++ worklib self ++ s[".vvp"]) ++ s[" "] in
  let elab_args := elab_args ++ PyStr.join s[" "] (sources self) in
  elab_args.

(** One pass of the loop over [self.sources] in [_run_modelsim]. *)
Definition modelsim_vlog_line (defines incdirs src : str) : str :=
  s["vlog -nologo -suppress 2902 "] ++ defines ++ s[" "] ++ incdirs ++
  s[" -sv -timescale "] ++ [DQ] ++ s["1 ns / 1 ps"] ++ [DQ] ++ s[" "] ++ src ++ [LF].

Definition modelsim_vcom_line (src : str) : str := s["vcom -93 "] ++ src ++ [LF].

Definition modelsim_source_step (defines incdirs : str) (sources src : str) : str :=
  let ext := file_ext src in
  if existsb (PyStr.eqb ext) [s[".v"]; s[".sv"]]
  then sources ++ modelsim_vlog_line defines incdirs src
  else if PyStr.eqb ext s["vhd"]
  then sources ++ modelsim_vcom_line src
  else sources.

Definition modelsim_defines (self : Simulator) : str :=
  PyStr.join s[" "] (map (fun define => s["+define+"] ++ define) (defines self)).

Definition modelsim_incdirs (self : Simulator) : str :=
  PyStr.join s[" "] (map (fun incdir => s["+incdir+"] ++ incdir) (incdirs self)).

Definition modelsim_params (self : Simulator) : str :=
  concat (map (fun param => s["-G "] ++ param ++ s[" "]) (params self)).

Definition modelsim_sources (self : Simulator) : str :=
  fold_left (modelsim_source_step (modelsim_defines self) (modelsim_incdirs self))
            (sources self) [].

(** [compile_tcl.format(...)]: the template, line by line. *)
Definition modelsim_compile_tcl (self : Simulator) : str :=
  let run := if negb (gui self) then s["run -all"] else [] in
  PyStr.join [LF]
    [ [];
      s["            proc rr  {} {"];
      s["              write format wave -window .main_pane.wave.interior.cs.body.pw.wf wave.do"];
      s["              uplevel #0 source compile.tcl"];
      s["            }"];
      s["            proc q  {} {quit -force}"];
      s["            vlib "] ++ worklib self;
      s["            vmap work "] ++ worklib self;
      s["            "] ++ modelsim_sources self;
      s["            eval vsim "] ++ worklib self ++ s["."] ++ top self ++ s[" "]
        ++ modelsim_params self;
      s["            if [file exist wave.do] {"];
      s["              source wave.do"];
      s["            }"];
      s["            "] ++ run;
      s["            "] ].

Definition modelsim_vsim_args (self : Simulator) : str :=
  let vsim_args := s["-do compile.tcl"] in
  if negb (gui self)
  then (vsim_args ++ s[" -c -64 "]) ++ s[" -onfinish exit"]
  else vsim_args ++ s[" -onfinish stop"].

(** One pass of the loop over [self.sources] in [_run_vivado]. *)
Definition vivado_source_step (sources src : str) : str :=
  let ext := file_ext src in
  if PyStr.eqb ext s[".sv"] then sources ++ (s["sv work "] ++ src ++ [LF])
  else if PyStr.eqb ext s[".v"] then sources ++ (s["verilog work "] ++ src ++ [LF])
  else if PyStr.eqb ext s["vhd"] then sources ++ (s["vhdl work "] ++ src ++ [LF])
  else sources.

(** The text written to [files.prj]. *)
Definition vivado_prj (self : Simulator) : str :=
  fold_left vivado_source_step (sources self) [].

Definition vivado_elab_args (self : Simulator) : str :=
  let elab_args :=
    s["-a --prj files.prj "] ++ top self ++ s[" -R -nolog -timescale "] ++ [DQ]
    ++ s["1 ns / 1 ps"] ++ [DQ] ++ s[" "] in
  let elab_args := elab_args ++
    PyStr.join s[" "] (map (fun define => s["-d "] ++ [DQ] ++ define ++ [DQ]) (defines self))
    ++ s[" "] in
  let elab_args := elab_args ++
    PyStr.join s[" "] (map (fun param => s["--generic_top "] ++ [DQ] ++ param ++ [DQ])
                          (params self))
    ++ s[" "] in
  let elab_args := elab_args ++
    PyStr.join s[" "] (map (fun incdir => s["-i "] ++ incdir) (incdirs self)) ++ s[" "] in
  elab_args.

(** What a run leaves behind: the simulator object, the effects in order
    and the exception that ended it, if any. *)
Record run_result := {
  sim : Simulator;
  effects : list effect;
  error : option exn
}.

Section Adapters.

(** The surroundings: the behaviour of the child that a command starts. *)
Variable spawn : command -> child.

Definition exec_step (prog args : str) (r : run_result) : run_result :=
  match error r with
  | Some _ => r
  | None =>
      let x := Simulator_exec (sim r) prog args
                 (spawn (exec_command (sim r) prog args)) in
      {| sim := self_after x;
         effects := effects r ++ map Print (console x);
         error := raised x |}
  end.

Definition begin_run (self : Simulator) (es : list effect) : run_result :=
  {| sim := self; effects := es; error := None |}.

(** [Simulator._run_icarus()] *)
Definition Simulator_run_icarus (self : Simulator) : run_result :=
  let r := begin_run self
    [ Print (s["Run Icarus (cwd="] ++ path_str (cwd self) ++ s[")"]);
      Print (PyStr.join s[" "] (defines self)) ] in
  let r := exec_step s["iverilog"] (icarus_elab_args self) r in
  let r := exec_step s["vvp"] (worklib self ++ s[".vvp -lxt2"]) r in
  if gui self then exec_step s["gtkwave"] s["dump.vcd"] r else r.

(** [Simulator._run_modelsim()] *)
Definition Simulator_run_modelsim (self : Simulator) : run_result :=
  let r := begin_run self
    [ Print (s["Run Modelsim (cwd="] ++ path_str (cwd self) ++ s[")"]);
      Print (PyStr.join s[" "] (defines self));
      WriteFile (path_join (cwd self) s["compile.tcl"]) (modelsim_compile_tcl self) ] in
  exec_step s["vsim"] (modelsim_vsim_args self) r.

(** [Simulator._run_vivado()] *)
Definition Simulator_run_vivado (self : Simulator) : run_result :=
  let r := begin_run self
    [ Print (s["Run Vivado (cwd="] ++ path_str (cwd self) ++ s[")"]);
      Print (PyStr.join s[" "] (defines self));
      Print (PyStr.join s[" "] (params self));
      WriteFile (path_join (cwd self) s["files.prj"]) (vivado_prj self) ] in
  exec_step s["xelab"] (vivado_elab_args self) r.

(** What [str(Path(p).resolve())] gives for a path of the caller: it
depends on the current directory and on the links of the file system. *)
Variable resolve_path : str -> str.

Definition backslash : ascii := "092"%char.

(** [s.replace('\\', '/')] *)
Definition slashes (s : str) : str :=
  map (fun c => if Ascii.eqb c backslash then "/"%char else c) s.

(** [Simulator.run()]: the paths are made absolute, the defines get the
name of the top module and [SIM], and the runner of the tool is called. *)
Definition Simulator_run (self : Simulator) : run_result :=
  let self' :=
    {| gui := gui self; cwd := cwd self; name := name self;
       worklib := worklib self; top := top self;
       sources := map (fun filepath => slashes (resolve_path filepath)) (sources self);
       defines := defines self ++ [s["TOP_NAME="] ++ top self; s["SIM"]];
       params := params self ++ [];
       incdirs := map (fun dirpath => slashes (resolve_path dirpath)) (incdirs self);
       stdout := stdout self; retcode := retcode self;
       sim_errors := sim_errors self |} in
  if PyStr.eqb (name self') s["icarus"] then Simulator_run_icarus self'
  else if PyStr.eqb (name self') s["modelsim"] then Simulator_run_modelsim self'
  else if PyStr.eqb (name self') s["vivado"] then Simulator_run_vivado self'
  else {| sim := self'; effects := []; error := Some (KeyError (name self')) |}.

End Adapters.

(** ** Notions the statements use *)

(** [x] occurs in [s]: some part of [s] is [x]. *)
Definition occurs_in (x s : str) : Prop := exists pre post, s = pre ++ x ++ post.

(** [v] is what follows the last [=] of [d], all of [d] when it has none. *)
Definition after_last_equals (d v : str) : Prop :=
  ~ In "="%char v /\ (d = v \/ exists p, d = p ++ "="%char :: v).

Definition lower_hex_digit (c : ascii) : Prop := In c s["0123456789abcdef"].

(** [r] is the hexadecimal notation of [d]: digits only, at least one, and
    their value is [d]. *)
Definition hex_notation (d : Z) (r : str) : Prop :=
  r <> [] /\ Forall lower_hex_digit r /\ parse_hex 0 r = Some (Z.to_N d).

(** A word: what [str.split] leaves whole. *)
Definition is_word (w : str) : Prop :=
  w <> [] /\ Forall (fun c => PyStr.is_space c = false) w.

(** The line of [files.prj] for a SystemVerilog or Verilog source. *)
Definition vivado_line (src : str) : str :=
  (if PyStr.eqb (file_ext src) s[".sv"] then s["sv"] else s["verilog"])
  ++ s[" work "] ++ src ++ [LF].

(** A simulator object as the constructor leaves it, with the lists the
    caller has filled in. *)
Definition configured (tool : str) (srcs defs pars incs : list str) : Simulator :=
  {| gui := false; cwd := [s["work"]]; name := tool;
     worklib := s["worklib"]; top := s["top"];
     sources := srcs; defines := defs; params := pars; incdirs := incs;
     stdout := []; retcode := 0%Z;
     sim_errors := fixed_markers |}.

(** What one source adds to the ModelSim script when the comparison with
    [vhd] fails. *)
Definition modelsim_line (defs incs src : str) : str :=
  if existsb (PyStr.eqb (file_ext src)) [s[".v"]; s[".sv"]]
  then modelsim_vlog_line defs incs src else [].

(** The text that the runner examines for a read: decoded and stripped. *)
Definition line_of (r : str * bool) : str := PyStr.strip (fst r).

(** A read that neither ends the loop nor raises: it is not an empty line
    of a child that has exited, and no marker occurs in it. *)
Definition lets_through (self : Simulator) (r : str * bool) : Prop :=
  ~ (line_of r = [] /\ snd r = true) /\
  forall err, In err (sim_errors self) -> ~ occurs_in err (line_of r).

(** No marker occurs in the line of the read. *)
Definition unmarked (self : Simulator) (r : str * bool) : Prop :=
  forall err, In err (sim_errors self) -> ~ occurs_in err (line_of r).

(** The lines that the loop prints for these reads. *)
Definition echo_of (rs : list (str * bool)) : list str :=
  filter (fun l => negb (PyStr.eqb l [])) (map line_of rs).

(** A child that prints three lines, the second one blank, and has exited
    with code 0 by the time the runner reads the second line. *)
Definition child_with_blank_line : child :=
  {| reads := [ (s["first"] ++ [LF], false);
                ([LF], true);
                (s["ERROR: late"] ++ [LF], true) ];
     returncode := 0 |}.

(** A tree of regular files and directories only. *)
Fixpoint plain (n : node) : bool :=
  match n with
  | File => true
  | Special => false
  | Dir es => plain_entries es
  end
with plain_entries (es : dirents) : bool :=
  match es with
  | dnil => true
  | dcons _ n rest => plain n && plain_entries rest
  end.

(** The working directory can be set up: its parent is a directory, and
    the path itself names nothing or a directory that holds regular files
    and directories only, at any depth. *)
Definition workspace_ready (es : fs) (cwd : path) : Prop :=
  cwd <> [] /\
  (exists siblings, resolve es (removelast cwd) = Some (Dir siblings)) /\
  (resolve es cwd = None \/
   exists entries, resolve es cwd = Some (Dir entries) /\ plain_entries entries = true).

(** The same condition, computed along the path. *)
Fixpoint ready (es : dirents) (p : path) : bool :=
  match p with
  | [] => false
  | nm :: p' =>
      match p', d_lookup nm es with
      | [], None => true
      | [], Some (Dir sub) => plain_entries sub
      | [], Some _ => false
      | _ :: _, Some (Dir sub) => ready sub p'
      | _ :: _, _ => false
      end
  end.

(** A file system with a used working directory [/home/work]. *)
Definition used_workspace : fs :=
  dcons s["home"]
    (Dir (dcons s["work"]
            (Dir (dcons s["worklib.vvp"] File
                 (dcons s["xsim.dir"]
                    (Dir (dcons s["work"] (Dir (dcons s["top.sdb"] File dnil))
                         (dcons s["xelab.pb"] File dnil)))
                 (dcons s["compile.tcl"] File dnil))))
         (dcons s["pyhdlsim.py"] File dnil)))
    dnil.


(** ** Further notions *)

(** The name of a define: what stands before its first [=], all of it when
    it has none. *)
Definition define_name (d : str) : str := hd [] (PyStr.split_on "=" d).

(** [q] lies at or below [p]. *)
Definition is_prefix (p q : path) : Prop := exists r, q = p ++ r.

(** Neither path lies at or below the other. *)
Definition apart (p q : path) : Prop := ~ is_prefix p q /\ ~ is_prefix q p.

(** The extensions that the adapters of ModelSim and Vivado compile. *)
Definition verilog_source (src : str) : bool :=
  PyStr.eqb (file_ext src) s[".sv"] || PyStr.eqb (file_ext src) s[".v"].

(** A child that prints nothing and exits with the given code. *)
Definition silent_child (code : Z) : child := {| reads := []; returncode := code |}.

(** What [_exec] can end with: nothing raised, [AssertionError], or
[RuntimeError] with a code other than 0. *)
Definition from_exec (e : option exn) : Prop :=
  e = None \/
  (exists out defs, e = Some (AssertionError out defs)) \/
  (exists cmd rc, rc <> 0%Z /\ e = Some (RuntimeError cmd rc)).

(** The two defines that [run] adds. *)
Definition run_defines (self : Simulator) : list str :=
  [s["TOP_NAME="] ++ top self; s["SIM"]].

(** * Properties of the embedding *)

Example get_define_samples :
  get_define s["WIDTH"] [s["WIDTH=8"]; s["SIM"]] = Some s["8"] /\
  get_define s["SIM"] [s["WIDTH=8"]; s["SIM"]] = Some s["SIM"] /\
  get_define s["A"] [s["A=x=y"]] = Some s["y"] /\
  get_define s["DEPTH"] [s["WIDTH=8"]; s["SIM"]] = None.
Proof. repeat split. Qed.

Example file_ext_samples :
  map file_ext [s["/a/b/top.sv"]; s["rtl/top.v"]; s["x.tar.gz"]; s[".bashrc"];
                s["dir.d/readme"]; s["trailing."]; s["a/b/"]; s["vhd"]; s["top.vhd"]]
  = [s[".sv"]; s[".v"]; s[".gz"]; []; []; []; []; []; s[".vhd"]].
Proof. reflexivity. Qed.

(** The no-break space and NEL are white space for [strip] and [split]. *)
Example strip_and_split_beyond_ascii :
  PyStr.strip ("160"%char :: s["ok"] ++ ["160"%char; "133"%char; LF]) = s["ok"] /\
  PyStr.strip ["160"%char; LF] = [] /\
  PyStr.split (s["a"] ++ "160"%char :: s["b"]) = [s["a"]; s["b"]].
Proof. repeat split. Qed.

Example strip_and_split_samples :
  PyStr.strip (s["  ERROR: x "] ++ [LF]) = s["ERROR: x"] /\
  PyStr.split s[" vvp   worklib.vvp -lxt2 "] = [s["vvp"]; s["worklib.vvp"]; s["-lxt2"]] /\
  PyStr.remove_all s["ab"] s["xabyabab"] = s["xy"] /\
  PyStr.remove_all s["aa"] s["aaa"] = s["a"].
Proof. repeat split. Qed.

(** ** Python strings *)

Module PyStrFacts.
Import PyStr.

Lemma eqb_eq a b : eqb a b = true <-> a = b.
Proof.
  unfold eqb; destruct (list_eq_dec ascii_dec a b); split; congruence.
Qed.

Lemma eqb_neq a b : eqb a b = false <-> a <> b.
Proof.
  unfold eqb; destruct (list_eq_dec ascii_dec a b); split; congruence.
Qed.

Lemma eqb_refl a : eqb a a = true.
Proof. now apply eqb_eq. Qed.

Lemma startswith_spec p : forall s, startswith p s = true <-> exists t, s = p ++ t.
Proof.
  induction p as [|a p IH]; intros s; simpl.
  - split; [intros _; now exists s | reflexivity].
  - destruct s as [|b s].
    + split; [discriminate | intros [t Ht]; discriminate].
    + rewrite andb_true_iff, Ascii.eqb_eq, IH. split.
      * intros [-> [t ->]]. now exists t.
      * intros [t Ht]. injection Ht as -> ->. split; [reflexivity | now exists t].
Qed.

Lemma startswith_app p t : startswith p (p ++ t) = true.
Proof. apply startswith_spec. now exists t. Qed.

Lemma contains_spec x : forall s, contains x s = true <-> occurs_in x s.
Proof.
  unfold occurs_in. induction s as [|c s IH].
  - simpl. rewrite orb_false_r, startswith_spec. split.
    + intros [t Ht]. now exists [], t.
    + intros [pre [post H]]. destruct pre; [now exists post | discriminate].
  - cbn [contains]. rewrite orb_true_iff, startswith_spec, IH. split.
    + intros [[t Ht] | [pre [post H]]].
      * now exists [], t.
      * exists (c :: pre), post. now rewrite H.
    + intros [pre [post H]]. destruct pre as [|c' pre].
      * left. now exists post.
      * right. injection H as _ H. now exists pre, post.
Qed.

Lemma contains_false x s : contains x s = false <-> ~ occurs_in x s.
Proof.
  rewrite <- contains_spec. destruct (contains x s); split; congruence.
Qed.

Lemma contains_app x pre post : contains x (pre ++ x ++ post) = true.
Proof. apply contains_spec. now exists pre, post. Qed.

(** *** [split] on a separator and [join] are inverse *)

Lemma split_on_nonempty sep s : split_on sep s <> [].
Proof.
  destruct s as [|c s]; simpl; [discriminate|].
  destruct (Ascii.eqb c sep); [discriminate|].
  destruct (split_on sep s); discriminate.
Qed.

Lemma join_cons sep p ps :
  ps <> [] -> join sep (p :: ps) = p ++ sep ++ join sep ps.
Proof. destruct ps; [congruence | reflexivity]. Qed.

Lemma join_snoc sep v :
  forall l, l <> [] -> join sep (l ++ [v]) = join sep l ++ sep ++ v.
Proof.
  induction l as [|q l IH]; intros H; [congruence|].
  destruct l as [|r l]; [reflexivity|].
  change (join sep ((q :: r :: l) ++ [v]))
    with (q ++ sep ++ join sep ((r :: l) ++ [v])).
  rewrite IH by discriminate.
  change (join sep (q :: r :: l)) with (q ++ sep ++ join sep (r :: l)).
  now rewrite <- !app_assoc.
Qed.

Lemma join_split_on sep : forall s, join [sep] (split_on sep s) = s.
Proof.
  induction s as [|c s IH]; [reflexivity|].
  simpl split_on. destruct (Ascii.eqb c sep) eqn:E.
  - apply Ascii.eqb_eq in E. subst c.
    rewrite join_cons by apply split_on_nonempty. simpl. now rewrite IH.
  - pose proof (split_on_nonempty sep s) as Hne.
    destruct (split_on sep s) as [|p ps]; [congruence|].
    destruct ps as [|q ps]; simpl in *; now rewrite <- IH.
Qed.

Lemma split_on_no_sep sep :
  forall s, Forall (fun p => ~ In sep p) (split_on sep s).
Proof.
  induction s as [|c s IH]; simpl.
  - constructor; [intros [] | constructor].
  - destruct (Ascii.eqb c sep) eqn:E.
    + constructor; [intros [] | exact IH].
    + apply Ascii.eqb_neq in E.
      destruct (split_on sep s) as [|p ps]; [constructor; [|constructor]|].
      * intros [H|[]]; congruence.
      * inversion IH; subst. constructor; [|assumption].
        intros [H|H]; [congruence | contradiction].
Qed.

Lemma split_on_without sep : forall s, ~ In sep s -> split_on sep s = [s].
Proof.
  induction s as [|c s IH]; intros H; [reflexivity|].
  simpl. destruct (Ascii.eqb c sep) eqn:E.
  - apply Ascii.eqb_eq in E. subst. exfalso. apply H. now left.
  - rewrite IH; [reflexivity|]. intros Hin. apply H. now right.
Qed.

Lemma last_cons_nonempty (A : Type) (x : A) l d : l <> [] -> last (x :: l) d = last l d.
Proof. destruct l; [congruence | reflexivity]. Qed.

Lemma last_split_on_app sep v :
  forall p, last (split_on sep (p ++ sep :: v)) [] = last (split_on sep v) [].
Proof.
  induction p as [|c p IH]; simpl.
  - rewrite Ascii.eqb_refl. apply last_cons_nonempty, split_on_nonempty.
  - destruct (Ascii.eqb c sep).
    + rewrite last_cons_nonempty by apply split_on_nonempty. exact IH.
    + pose proof (split_on_nonempty sep (p ++ sep :: v)) as Hne.
      assert (Hlen : exists q r rs, split_on sep (p ++ sep :: v) = q :: r :: rs).
      { pose proof (join_split_on sep (p ++ sep :: v)) as J.
        pose proof (split_on_no_sep sep (p ++ sep :: v)) as F.
        destruct (split_on sep (p ++ sep :: v)) as [|q [|r rs]]; [congruence| |eauto].
        simpl in J. subst q. inversion F; subst. exfalso. apply H1.
        apply in_or_app. right. now left. }
      destruct Hlen as [q [r [rs Hs]]]. rewrite Hs in *. exact IH.
Qed.

(** [d.split('=')[-1]] is the text after the last [=]. *)
Lemma last_split_on_spec d v :
  last (split_on "=" d) [] = v <-> after_last_equals d v.
Proof.
  unfold after_last_equals. split.
  - intros <-.
    pose proof (split_on_nonempty "=" d) as Hne.
    pose proof (join_split_on "=" d) as J.
    pose proof (split_on_no_sep "=" d) as F.
    destruct (exists_last Hne) as [l [v Hl]]. rewrite Hl in *.
    rewrite last_last. split.
    + rewrite Forall_forall in F. apply F. apply in_or_app. right. now left.
    + destruct l as [|q l]; [left; now rewrite <- J|].
      right. exists (join s["="] (q :: l)). rewrite <- J.
      rewrite join_snoc by discriminate. reflexivity.
  - intros [Hv [-> | [p ->]]].
    + now rewrite split_on_without.
    + rewrite last_split_on_app. now rewrite split_on_without.
Qed.

End PyStrFacts.

(** ** The define lookup *)

Section GetDefine.
Import PyStr PyStrFacts.

Lemma find_none_iff (A : Type) (f : A -> bool) l :
  find f l = None <-> forall x, In x l -> f x = false.
Proof.
  split; [apply find_none|].
  induction l as [|a l IH]; intros H; [reflexivity|]. simpl.
  rewrite (H a) by now left. apply IH. intros x Hx. apply H. now right.
Qed.

Lemma find_some_iff (A : Type) (f : A -> bool) l x :
  find f l = Some x <->
  exists before after, l = before ++ x :: after /\ f x = true /\
                       forall y, In y before -> f y = false.
Proof.
  split.
  - induction l as [|a l IH]; [discriminate|]. simpl.
    destruct (f a) eqn:E.
    + intros [= ->]. exists [], l. repeat split; [assumption | intros y []].
    + intros H. destruct (IH H) as [b [c [-> [Hx Hb]]]].
      exists (a :: b), c. repeat split; [assumption|].
      intros y [<-|Hy]; [assumption | now apply Hb].
  - intros [b [c [-> [Hx Hb]]]]. induction b as [|a b IH]; simpl.
    + now rewrite Hx.
    + rewrite (Hb a) by now left. apply IH. intros y Hy. apply Hb. now right.
Qed.

Lemma get_define_none name defines :
  get_define name defines = None <->
  forall d, In d defines -> ~ occurs_in name d.
Proof.
  unfold get_define.
  destruct (find _ defines) as [d|] eqn:E.
  - split; [discriminate|]. intros H. exfalso.
    apply find_some in E. destruct E as [Hin Hc].
    apply (H d Hin). now apply contains_spec.
  - split; [|reflexivity]. intros _ d Hd.
    apply contains_false. now apply (find_none _ _ E).
Qed.

End GetDefine.

(** C7, as the claim states it, fails: no define of [['WIDTH=8']] has the
    name [ID], yet the lookup of [ID] gives ['8'], the value of [WIDTH],
    because [ID] occurs in [WIDTH=8]. *)
Lemma get_define_finds_a_define_of_another_name :
  map define_name [s["WIDTH=8"]] = [s["WIDTH"]] /\
  s["ID"] <> s["WIDTH"] /\
  get_define s["ID"] [s["WIDTH=8"]] = Some s["8"] /\
  Simulator_get_define (configured s["icarus"] [] [s["WIDTH=8"]] [] []) s["ID"]
  = Some s["8"].
Proof. repeat split. discriminate. Qed.

(** C7, amended.  The lookup of [WIDTH] in [['WIDTH=8', 'SIM']] gives
    ['8'], by the function and by the method of the simulator object.  A
    name that occurs as a substring in no define of the list gives [None],
    by the function and by the method: the lookup ends with a value and
    never with an exception. *)
Theorem get_define_found_or_none :
  forall (self : Simulator) (nm : str),
    (forall d, In d (defines self) -> ~ occurs_in nm d) ->
    get_define s["WIDTH"] [s["WIDTH=8"]; s["SIM"]] = Some s["8"] /\
    Simulator_get_define (configured s["icarus"] [] [s["WIDTH=8"]; s["SIM"]] [] [])
                         s["WIDTH"]
    = Some s["8"] /\
    get_define nm (defines self) = None /\
    Simulator_get_define self nm = None.
Proof.
  intros self nm H. split; [reflexivity|]. split; [reflexivity|].
  assert (get_define nm (defines self) = None) by now apply get_define_none.
  split; assumption.
Qed.

Lemma get_define_found_or_none_witness :
  Simulator_get_define (configured s["icarus"] [] [s["WIDTH=8"]; s["SIM"]] [] [])
                       s["WIDTH"]
  = Some s["8"] /\
  Simulator_get_define (configured s["icarus"] [] [s["WIDTH=8"]; s["SIM"]] [] [])
                       s["DEPTH"]
  = None.
Proof.
  assert (H : forall d,
             In d (defines (configured s["icarus"] [] [s["WIDTH=8"]; s["SIM"]] [] [])) ->
             ~ occurs_in s["DEPTH"] d).
  { intros d [<-|[<-|[]]]; apply PyStrFacts.contains_false; reflexivity. }
  destruct (get_define_found_or_none
              (configured s["icarus"] [] [s["WIDTH=8"]; s["SIM"]] [] [])
              s["DEPTH"] H)
    as [_ [H1 [_ H2]]].
  split; [exact H1 | exact H2].
Defined.

(** C10.  The lookup matches by containment: the result is the text after
    the last [=] of the first define in which the name occurs anywhere.  A
    define without [=] is returned whole, and a name inside a longer define
    name finds that define: [ID] finds the value of [WIDTH=8]. *)
Theorem get_define_matches_substring :
  (forall (name : str) (defines : list str) (v : str),
     get_define name defines = Some v <->
     exists before d after,
       defines = before ++ d :: after /\
       (forall x, In x before -> ~ occurs_in name x) /\
       occurs_in name d /\
       after_last_equals d v) /\
  get_define s["SIM"] [s["WIDTH=8"]; s["SIM"]] = Some s["SIM"] /\
  get_define s["ID"] [s["WIDTH=8"]] = Some s["8"].
Proof.
  split; [|split; reflexivity].
  intros name defines v. unfold get_define. split.
  - destruct (find _ defines) as [d|] eqn:E; [|discriminate].
    intros [= <-]. apply find_some_iff in E.
    destruct E as [b [a [-> [Hd Hb]]]]. exists b, d, a.
    split; [reflexivity|]. split; [|split].
    + intros x Hx. apply PyStrFacts.contains_false. now apply Hb.
    + now apply PyStrFacts.contains_spec.
    + now apply PyStrFacts.last_split_on_spec.
  - intros [b [d [a [-> [Hb [Hd Hv]]]]]].
    assert (E : find (fun d0 => PyStr.contains name d0) (b ++ d :: a) = Some d).
    { apply find_some_iff. exists b, a. split; [reflexivity|]. split.
      - now apply PyStrFacts.contains_spec.
      - intros y Hy. apply PyStrFacts.contains_false. now apply Hb. }
    rewrite E. f_equal. now apply PyStrFacts.last_split_on_spec.
Qed.

(** ** The memory file writer *)

Section MemFile.

Lemma hex_value_of_digit (d : N) :
  (d < 16)%N -> hex_value_of (hex_digit d) = Some d.
Proof.
  intros H. unfold hex_digit.
  remember (N.to_nat d) as n eqn:En.
  assert (Hn : n < 16) by lia.
  assert (Hd : d = N.of_nat n) by lia.
  subst d. clear En H.
  do 16 (destruct n as [|n]; [reflexivity|]). lia.
Qed.

Lemma hex_value_of_lower c d : hex_value_of c = Some d -> lower_hex_digit c.
Proof.
  unfold hex_value_of, lower_hex_digit.
  destruct ((48 <=? N_of_ascii c) && (N_of_ascii c <=? 57))%N eqn:E1;
    [|destruct ((97 <=? N_of_ascii c) && (N_of_ascii c <=? 102))%N eqn:E2;
      [|discriminate]]; intros _.
  - apply andb_true_iff in E1. destruct E1 as [A B].
    apply N.leb_le in A, B. rewrite <- (ascii_N_embedding c).
    assert (Hn : exists k, k < 10 /\ N_of_ascii c = (48 + N.of_nat k)%N).
    { exists (N.to_nat (N_of_ascii c - 48)). lia. }
    destruct Hn as [k [Hk ->]].
    do 10 (destruct k as [|k]; [simpl; tauto|]). lia.
  - apply andb_true_iff in E2. destruct E2 as [A B].
    apply N.leb_le in A, B. rewrite <- (ascii_N_embedding c).
    assert (Hn : exists k, k < 6 /\ N_of_ascii c = (97 + N.of_nat k)%N).
    { exists (N.to_nat (N_of_ascii c - 97)). lia. }
    destruct Hn as [k [Hk ->]].
    do 6 (destruct k as [|k]; [simpl; tauto|]). lia.
Qed.

Lemma parse_hex_digits acc r v :
  parse_hex acc r = Some v -> Forall lower_hex_digit r.
Proof.
  revert acc. induction r as [|c r IH]; intros acc H; [constructor|].
  simpl in H. destruct (hex_value_of c) as [d|] eqn:E; [|discriminate].
  constructor; [now apply hex_value_of_lower with d | now apply IH with (16 * acc + d)%N].
Qed.

(** Reading back the digits gives the number again, once the fuel covers
    the binary length of the number. *)
Lemma parse_hex_digits_of fuel :
  forall n tl, (n < 2 ^ N.of_nat fuel)%N ->
    parse_hex 0 (hex_digits fuel n tl) = parse_hex n tl.
Proof.
  induction fuel as [|fuel IH]; intros n tl H.
  - simpl in *. assert (n = 0%N) by lia. now subst.
  - cbn [hex_digits].
    assert (Hd : (n mod 16 < 16)%N) by (apply N.mod_lt; lia).
    pose proof (N.div_mod n 16 ltac:(lia)) as Hn.
    destruct (n / 16 =? 0)%N eqn:E.
    + apply N.eqb_eq in E. cbn [parse_hex].
      rewrite hex_value_of_digit by assumption. f_equal. lia.
    + apply N.eqb_neq in E. rewrite IH.
      * cbn [parse_hex]. rewrite hex_value_of_digit by assumption. f_equal. lia.
      * rewrite Nat2N.inj_succ, N.pow_succ_r' in H.
        assert (n / 16 <= n / 2)%N.
        { apply N.div_le_compat_l. lia. }
        assert (n / 2 < 2 ^ N.of_nat fuel)%N by (apply N.Div0.div_lt_upper_bound; lia).
        lia.
Qed.

Lemma hex_digits_nonempty fuel n tl : hex_digits (S fuel) n tl <> [].
Proof.
  cbn [hex_digits]. destruct (n / 16 =? 0)%N; [discriminate|].
  generalize (n / 16)%N, (hex_digit (n mod 16)). clear.
  revert tl. induction fuel as [|fuel IH]; intros tl m c; [discriminate|].
  cbn [hex_digits]. destruct (m / 16 =? 0)%N; [discriminate | apply IH].
Qed.

Lemma hex_of_N_notation (n : N) :
  hex_of_N n <> [] /\ Forall lower_hex_digit (hex_of_N n) /\
  parse_hex 0 (hex_of_N n) = Some n.
Proof.
  assert (P : parse_hex 0 (hex_of_N n) = Some n).
  { unfold hex_of_N. rewrite parse_hex_digits_of; [reflexivity|].
    rewrite Nat2N.inj_succ, N2Nat.id.
    destruct n as [|p]; [reflexivity|].
    apply N.log2_spec. lia. }
  split; [apply hex_digits_nonempty|]. split; [|exact P].
  now apply parse_hex_digits with 0%N n.
Qed.

Lemma format_x_notation (d : Z) : (0 <= d)%Z -> hex_notation d (format_x d).
Proof.
  intros H. unfold format_x, hex_notation.
  destruct (d <? 0)%Z eqn:E; [apply Z.ltb_lt in E; lia|].
  apply hex_of_N_notation.
Qed.

End MemFile.

(** C9.  For non-negative values the file holds, in the order of the input,
    one line per value: its lower-case hexadecimal digits (no prefix: every
    character is a digit) and a line feed.  For [[10, 255]] the content is
    [a], line feed, [ff], line feed. *)
Theorem write_memfile_hex_lines :
  forall (filepath : str) (data : list Z),
    Forall (fun d => (0 <= d)%Z) data ->
    (exists reps,
        write_memfile filepath data
        = WriteFile (parse_path filepath) (concat (map (fun r => r ++ [LF]) reps)) /\
        Forall2 hex_notation data reps) /\
    write_memfile filepath [10%Z; 255%Z]
    = WriteFile (parse_path filepath) (s["a"] ++ [LF] ++ s["ff"] ++ [LF]).
Proof.
  intros filepath data H. split; [|reflexivity].
  exists (map format_x data). split.
  - unfold write_memfile, memfile_lines. now rewrite map_map.
  - induction H as [|d data Hd _ IH]; simpl; constructor;
      [now apply format_x_notation | exact IH].
Qed.

Lemma write_memfile_hex_lines_witness :
  exists reps,
    write_memfile s["rom.mem"] [0%Z; 10%Z; 255%Z; 4096%Z]
    = WriteFile [s["rom.mem"]] (concat (map (fun r => r ++ [LF]) reps)) /\
    Forall2 hex_notation [0%Z; 10%Z; 255%Z; 4096%Z] reps.
Proof.
  apply (write_memfile_hex_lines s["rom.mem"] [0%Z; 10%Z; 255%Z; 4096%Z]).
  repeat constructor; discriminate.
Defined.

(** ** File extensions and the scripts of the adapters *)

Section Extensions.
Import PyStr PyStrFacts.

Lemma rfind_skipn c : forall s i, rfind c s = Some i -> exists t, skipn i s = c :: t.
Proof.
  induction s as [|x s IH]; intros i H; [discriminate|].
  simpl in H. destruct (rfind c s) as [j|] eqn:E.
  - injection H as <-. simpl. now apply IH.
  - destruct (Ascii.eqb x c) eqn:Ex; [|discriminate].
    injection H as <-. apply Ascii.eqb_eq in Ex. subst. now exists s.
Qed.

(** A suffix is empty or starts with the dot. *)
Lemma path_suffix_shape nm :
  path_suffix nm = [] \/ exists t, path_suffix nm = "."%char :: t.
Proof.
  unfold path_suffix. destruct (rfind "." nm) as [i|] eqn:E; [|now left].
  destruct ((0 <? i) && (i <? List.length nm - 1)); [|now left].
  right. now apply rfind_skipn.
Qed.

Lemma file_ext_shape src :
  file_ext src = [] \/ exists t, file_ext src = "."%char :: t.
Proof. apply path_suffix_shape. Qed.

Lemma file_ext_not_vhd src : PyStr.eqb (file_ext src) s["vhd"] = false.
Proof.
  apply eqb_neq. destruct (file_ext_shape src) as [-> | [t ->]]; discriminate.
Qed.

Lemma occurs_in_refl x : occurs_in x x.
Proof. exists [], []. now rewrite app_nil_r. Qed.

Lemma occurs_in_app x a s b : occurs_in x s -> occurs_in x (a ++ s ++ b).
Proof.
  intros [pre [post ->]]. exists (a ++ pre), (post ++ b).
  now rewrite <- !app_assoc.
Qed.

Lemma occurs_in_left x s b : occurs_in x s -> occurs_in x (s ++ b).
Proof.
  intros [pre [post ->]]. exists pre, (post ++ b). now rewrite <- !app_assoc.
Qed.

Lemma occurs_in_right x a s : occurs_in x s -> occurs_in x (a ++ s).
Proof.
  intros [pre [post ->]]. exists (a ++ pre), post. now rewrite <- !app_assoc.
Qed.

Lemma fold_left_appending (step : str -> str -> str) (line : str -> str) :
  (forall acc src, step acc src = acc ++ line src) ->
  forall l acc, fold_left step l acc = acc ++ concat (map line l).
Proof.
  intros Hs. induction l as [|x l IH]; intros acc; simpl.
  - now rewrite app_nil_r.
  - now rewrite IH, Hs, <- app_assoc.
Qed.

Lemma modelsim_source_step_line defs incs acc src :
  modelsim_source_step defs incs acc src = acc ++ modelsim_line defs incs src.
Proof.
  unfold modelsim_source_step, modelsim_line.
  destruct (existsb _ _); [reflexivity|].
  rewrite file_ext_not_vhd. now rewrite app_nil_r.
Qed.

Lemma modelsim_sources_lines self :
  modelsim_sources self
  = concat (map (modelsim_line (modelsim_defines self) (modelsim_incdirs self))
                (sources self)).
Proof.
  unfold modelsim_sources.
  now rewrite (fold_left_appending _ _ (modelsim_source_step_line _ _)).
Qed.

Lemma occurs_in_concat x (l : list str) : In x l -> occurs_in x (concat l).
Proof.
  intros H. apply in_split in H. destruct H as [l1 [l2 ->]].
  rewrite concat_app. simpl. exists (concat l1), (concat l2). reflexivity.
Qed.

Lemma occurs_in_compile_tcl self x :
  occurs_in x (modelsim_sources self) -> occurs_in x (modelsim_compile_tcl self).
Proof.
  intros H. unfold modelsim_compile_tcl. cbn [join].
  repeat match goal with
         | |- occurs_in x ((_ ++ modelsim_sources self) ++ _) =>
             apply occurs_in_left, occurs_in_right; exact H
         | |- occurs_in x (_ ++ _) => apply occurs_in_right
         end.
Qed.

End Extensions.

(** C4.  A source with the extension [.sv] or [.v] gets its compile line
    in the script, a line that starts with [vlog] and switches the compiler
    to SystemVerilog with [-sv].  The extension helper gives the empty
    string or a string that starts with the dot, so the comparison with
    [vhd] fails for every path and no source ever adds a [vcom] line. *)
Theorem modelsim_vlog_line_and_dead_vhdl_branch :
  forall (self : Simulator) (src : str),
    In src (sources self) ->
    file_ext src = s[".sv"] \/ file_ext src = s[".v"] ->
    occurs_in (modelsim_vlog_line (modelsim_defines self) (modelsim_incdirs self) src)
              (modelsim_compile_tcl self) /\
    PyStr.startswith s["vlog "]
      (modelsim_vlog_line (modelsim_defines self) (modelsim_incdirs self) src) = true /\
    occurs_in s[" -sv "]
      (modelsim_vlog_line (modelsim_defines self) (modelsim_incdirs self) src) /\
    (forall any, file_ext any = [] \/ exists t, file_ext any = "."%char :: t) /\
    (forall any, PyStr.eqb (file_ext any) s["vhd"] = false) /\
    (forall defs incs acc any,
        modelsim_source_step defs incs acc any <> acc ++ modelsim_vcom_line any).
Proof.
  intros self src Hin Hext. repeat split.
  - apply occurs_in_compile_tcl. rewrite modelsim_sources_lines.
    apply occurs_in_concat.
    replace (modelsim_vlog_line _ _ src)
      with (modelsim_line (modelsim_defines self) (modelsim_incdirs self) src).
    + now apply in_map.
    + unfold modelsim_line. destruct Hext as [-> | ->]; reflexivity.
  - unfold modelsim_vlog_line.
    exists (s["vlog -nologo -suppress 2902 "] ++ modelsim_defines self ++ s[" "]
            ++ modelsim_incdirs self),
           (s["-timescale "] ++ [DQ] ++ s["1 ns / 1 ps"] ++ [DQ] ++ s[" "] ++ src ++ [LF]).
    now rewrite <- !app_assoc.
  - apply file_ext_shape.
  - apply file_ext_not_vhd.
  - intros defs incs acc any. rewrite modelsim_source_step_line.
    intros H. apply app_inv_head in H. unfold modelsim_line in H.
    destruct (existsb _ _); discriminate.
Qed.

Lemma modelsim_vlog_line_and_dead_vhdl_branch_witness :
  occurs_in
    (modelsim_vlog_line s["+define+SIM"] s["+incdir+/rtl/inc"] s["/rtl/top.sv"])
    (modelsim_compile_tcl
       (configured s["modelsim"] [s["/rtl/pkg.vhd"]; s["/rtl/top.sv"]]
                   [s["SIM"]] [] [s["/rtl/inc"]])).
Proof.
  apply (modelsim_vlog_line_and_dead_vhdl_branch
           (configured s["modelsim"] [s["/rtl/pkg.vhd"]; s["/rtl/top.sv"]]
                       [s["SIM"]] [] [s["/rtl/inc"]])
           s["/rtl/top.sv"]).
  - simpl. right. left. reflexivity.
  - left. reflexivity.
Defined.

(** ** The Vivado project file *)

Section VivadoProject.
Import PyStr PyStrFacts.

Lemma vivado_source_step_line acc src :
  vivado_source_step acc src
  = acc ++ (if PyStr.eqb (file_ext src) s[".sv"] || PyStr.eqb (file_ext src) s[".v"]
            then vivado_line src else []).
Proof.
  unfold vivado_source_step, vivado_line.
  destruct (PyStr.eqb (file_ext src) s[".sv"]); [reflexivity|].
  destruct (PyStr.eqb (file_ext src) s[".v"]); [reflexivity|].
  rewrite file_ext_not_vhd. now rewrite app_nil_r.
Qed.

Lemma vivado_prj_lines self :
  vivado_prj self
  = concat (map (fun src =>
                   if PyStr.eqb (file_ext src) s[".sv"] || PyStr.eqb (file_ext src) s[".v"]
                   then vivado_line src else [])
                (sources self)).
Proof.
  unfold vivado_prj.
  now rewrite (fold_left_appending _ _ vivado_source_step_line).
Qed.

Lemma exec_step_keeps_effects spawn prog args r e :
  In e (effects r) -> In e (effects (exec_step spawn prog args r)).
Proof.
  intros H. unfold exec_step. destruct (error r); [assumption|].
  simpl. apply in_or_app. now left.
Qed.

End VivadoProject.

(** A source with an extension that the adapter does not know adds
    nothing: two sources, one line. *)
Example vivado_prj_unknown_extension :
  vivado_prj (configured s["vivado"] [s["/rtl/dut.sv"]; s["/rtl/notes.txt"]] [] [] [])
  = s["sv work /rtl/dut.sv"] ++ [LF].
Proof. reflexivity. Qed.

(** When every source has the extension [.sv] or [.v], the text written to
    [files.prj] in the working directory is one line per source, in the
    order of the list: [sv work <path>] for [.sv], [verilog work <path>]
    for [.v]; the library is always [work]. *)
Lemma vivado_prj_verilog_sources :
  forall (spawn : command -> child) (self : Simulator),
    (forall src, In src (sources self) ->
                 file_ext src = s[".sv"] \/ file_ext src = s[".v"]) ->
    vivado_prj self = concat (map vivado_line (sources self)) /\
    In (WriteFile (cwd self ++ [s["files.prj"]]) (concat (map vivado_line (sources self))))
       (effects (Simulator_run_vivado spawn self)).
Proof.
  intros spawn self H.
  assert (E : vivado_prj self = concat (map vivado_line (sources self))).
  { rewrite vivado_prj_lines. f_equal. apply map_ext_in. intros src Hsrc.
    destruct (H src Hsrc) as [-> | ->]; reflexivity. }
  split; [exact E|].
  unfold Simulator_run_vivado. apply exec_step_keeps_effects. simpl.
  right. right. right. left. now rewrite E.
Qed.

(** C5: the code at the input on which it departs from the claim.  The
    extension of [/rtl/top.vhd] is [.vhd]; the adapter compares it with
    [vhd], so the VHDL source gets no line and the project file that is
    written is empty, where the claim has one line [vhdl work
    /rtl/top.vhd]. *)
Theorem vivado_vhdl_source_gets_no_line :
  file_ext s["/rtl/top.vhd"] = s[".vhd"] /\
  vivado_prj (configured s["vivado"] [s["/rtl/top.vhd"]] [] [] []) = [] /\
  vivado_prj (configured s["vivado"] [s["/rtl/top.vhd"]] [] [] [])
  <> s["vhdl work /rtl/top.vhd"] ++ [LF] /\
  In (WriteFile [s["work"]; s["files.prj"]] [])
     (effects (Simulator_run_vivado (fun _ => {| reads := []; returncode := 0 |})
                 (configured s["vivado"] [s["/rtl/top.vhd"]] [] [] []))).
Proof.
  repeat split; [discriminate|]. simpl. tauto.
Qed.

(** ** The arguments of the Icarus elaboration *)

Section IcarusArguments.
Import PyStr PyStrFacts.

Lemma split_go_word w :
  Forall (fun c => is_space c = false) w ->
  forall cur rest, split_go cur (w ++ rest) = split_go (rev w ++ cur) rest.
Proof.
  induction 1 as [|c w Hc _ IH]; intros cur rest; [reflexivity|].
  simpl. rewrite Hc, IH. now rewrite <- app_assoc.
Qed.

Lemma split_word_then_space w rest :
  is_word w -> split_go [] (w ++ " "%char :: rest) = w :: split_go [] rest.
Proof.
  intros [Hne Hw]. rewrite split_go_word by assumption. rewrite app_nil_r.
  simpl. destruct (rev w) as [|c r] eqn:E.
  - exfalso. apply Hne. apply (f_equal (@rev ascii)) in E.
    now rewrite rev_involutive in E.
  - now rewrite <- E, rev_involutive.
Qed.

Lemma split_word w : is_word w -> split_go [] w = [w].
Proof.
  intros [Hne Hw]. rewrite <- (app_nil_r w) at 1.
  rewrite split_go_word by assumption. rewrite app_nil_r.
  simpl. destruct (rev w) as [|c r] eqn:E.
  - exfalso. apply Hne. apply (f_equal (@rev ascii)) in E.
    now rewrite rev_involutive in E.
  - now rewrite <- E, rev_involutive.
Qed.

Lemma split_space rest : split_go [] (" "%char :: rest) = split_go [] rest.
Proof. reflexivity. Qed.

Lemma split_flag_then_space flag x t :
  is_word flag -> is_word x ->
  split_go [] ((flag ++ " "%char :: x) ++ s[" "] ++ t) = flag :: x :: split_go [] t.
Proof.
  intros Hflag Hx.
  replace ((flag ++ " "%char :: x) ++ s[" "] ++ t)
    with (flag ++ " "%char :: (x ++ " "%char :: t))
    by (rewrite <- app_assoc; reflexivity).
  now rewrite !split_word_then_space.
Qed.

(** A block of flags, each with one argument, then a space. *)
Lemma split_flag_block flag (fl : str -> str) :
  is_word flag ->
  (forall x, fl x = flag ++ " "%char :: x) ->
  forall xs rest, Forall is_word xs ->
    split_go [] (join s[" "] (map fl xs) ++ s[" "] ++ rest)
    = flat_map (fun x => [flag; x]) xs ++ split_go [] rest.
Proof.
  intros Hflag Hfl. induction xs as [|x xs IH]; intros rest Hxs; [reflexivity|].
  inversion Hxs as [|? ? Hx Hxs']; subst.
  destruct xs as [|y ys].
  - cbn [map join]. rewrite Hfl. now rewrite split_flag_then_space.
  - change (join s[" "] (map fl (x :: y :: ys)))
      with (fl x ++ s[" "] ++ join s[" "] (map fl (y :: ys))).
    replace ((fl x ++ s[" "] ++ join s[" "] (map fl (y :: ys))) ++ s[" "] ++ rest)
      with ((flag ++ " "%char :: x) ++ s[" "]
            ++ (join s[" "] (map fl (y :: ys)) ++ s[" "] ++ rest))
      by (rewrite Hfl, <- !app_assoc; reflexivity).
    rewrite split_flag_then_space by assumption.
    now rewrite IH.
Qed.

Lemma split_join_words xs :
  Forall is_word xs -> split_go [] (join s[" "] xs) = xs.
Proof.
  induction xs as [|x xs IH]; intros Hxs; [reflexivity|].
  inversion Hxs as [|? ? Hx Hxs']; subst.
  destruct xs as [|y ys]; [now apply split_word|].
  change (join s[" "] (x :: y :: ys)) with (x ++ " "%char :: join s[" "] (y :: ys)).
  rewrite split_word_then_space by assumption. now rewrite IH.
Qed.

Lemma is_word_literal w :
  w <> [] -> forallb (fun c => negb (is_space c)) w = true -> is_word w.
Proof.
  intros Hne H. split; [assumption|].
  rewrite forallb_forall in H. apply Forall_forall. intros c Hc.
  apply H in Hc. now destruct (is_space c).
Qed.

Lemma is_word_app w v : is_word w -> is_word v -> is_word (w ++ v).
Proof.
  intros [Hw Fw] [Hv Fv]. split.
  - destruct w; [congruence | discriminate].
  - now apply Forall_app.
Qed.

Lemma icarus_tokens self :
  Forall is_word (incdirs self) -> Forall is_word (defines self) ->
  Forall is_word (sources self) -> is_word (top self) -> is_word (worklib self) ->
  split (icarus_elab_args self)
  = flat_map (fun x => [s["-I"]; x]) (incdirs self)
    ++ flat_map (fun x => [s["-D"]; x]) (defines self)
    ++ [s["-g2005-sv"]; s["-s"]; top self; s["-o"]; worklib self ++ s[".vvp"]]
    ++ sources self.
Proof.
  intros Hi Hd Hs Ht Hw. unfold split, icarus_elab_args.
  rewrite app_nil_l, <- !app_assoc.
  rewrite (split_flag_block s["-I"] (fun x => s["-I "] ++ x));
    [|now apply is_word_literal|reflexivity|assumption].
  rewrite (split_flag_block s["-D"] (fun x => s["-D "] ++ x));
    [|now apply is_word_literal|reflexivity|assumption].
  do 2 f_equal.
  change (s["-g2005-sv -s "] ++ top self ++ s[" -o "] ++ worklib self ++ s[".vvp"]
          ++ s[" "] ++ join s[" "] (sources self))
    with (s["-g2005-sv"] ++ " "%char :: (s["-s"] ++ " "%char ::
          (top self ++ " "%char :: (s["-o"] ++ " "%char ::
          (worklib self ++ s[".vvp"] ++ " "%char :: join s[" "] (sources self)))))).
  rewrite split_word_then_space by now apply is_word_literal.
  rewrite split_word_then_space by now apply is_word_literal.
  rewrite split_word_then_space by assumption.
  rewrite split_word_then_space by now apply is_word_literal.
  rewrite app_assoc.
  rewrite split_word_then_space
    by (apply is_word_app; [assumption | now apply is_word_literal]).
  now rewrite split_join_words.
Qed.

End IcarusArguments.

(** C6.  The argument string of the elaboration is the include flags, then
    one [-D] flag per define, in the order of the list, then the fixed
    flags, and last the sources in their order.  When no name holds white
    space, the words that [_exec] makes of the string are exactly these:
    [-D] and a define for each define, and the sources at the end. *)
Theorem icarus_elab_args_defines_then_sources :
  forall (self : Simulator),
    (exists before between,
        icarus_elab_args self
        = before
          ++ PyStr.join s[" "] (map (fun define => s["-D "] ++ define) (defines self))
          ++ between
          ++ PyStr.join s[" "] (sources self)
        /\ before
           = PyStr.join s[" "] (map (fun incdir => s["-I "] ++ incdir) (incdirs self))
             ++ s[" "]
        /\ between
           = s[" -g2005-sv -s "] ++ top self ++ s[" -o "] ++ worklib self ++ s[".vvp "]) /\
    (Forall is_word (incdirs self) -> Forall is_word (defines self) ->
     Forall is_word (sources self) -> is_word (top self) -> is_word (worklib self) ->
     PyStr.split (icarus_elab_args self)
     = flat_map (fun incdir => [s["-I"]; incdir]) (incdirs self)
       ++ flat_map (fun define => [s["-D"]; define]) (defines self)
       ++ [s["-g2005-sv"]; s["-s"]; top self; s["-o"]; worklib self ++ s[".vvp"]]
       ++ sources self).
Proof.
  intros self. split; [|apply icarus_tokens].
  eexists. eexists. split; [|split; reflexivity].
  unfold icarus_elab_args. rewrite app_nil_l, <- !app_assoc. reflexivity.
Qed.

Lemma icarus_elab_args_defines_then_sources_witness :
  PyStr.split
    (icarus_elab_args
       (configured s["icarus"] [s["/rtl/dut.sv"]; s["/tb/tb.sv"]]
                   [s["WIDTH=8"]; s["TOP_NAME=top"]; s["SIM"]] [] [s["/rtl/inc"]]))
  = [s["-I"]; s["/rtl/inc"];
     s["-D"]; s["WIDTH=8"]; s["-D"]; s["TOP_NAME=top"]; s["-D"]; s["SIM"];
     s["-g2005-sv"]; s["-s"]; s["top"]; s["-o"]; s["worklib.vvp"];
     s["/rtl/dut.sv"]; s["/tb/tb.sv"]].
Proof.
  apply (proj2 (icarus_elab_args_defines_then_sources
           (configured s["icarus"] [s["/rtl/dut.sv"]; s["/tb/tb.sv"]]
                       [s["WIDTH=8"]; s["TOP_NAME=top"]; s["SIM"]] [] [s["/rtl/inc"]])));
    repeat first [ apply Forall_cons | apply Forall_nil
                 | apply is_word_literal; [discriminate | reflexivity] ].
Defined.

(** ** The process runner *)

Section Replace.
Import PyStr PyStrFacts.

Lemma remove_from_skip old :
  forall a rest, remove_from old (List.length a) (a ++ rest) = remove_from old 0 rest.
Proof.
  induction a as [|c a IH]; intros rest; [reflexivity|].
  simpl. apply IH.
Qed.

(** An occurrence at the start is dropped. *)
Lemma remove_all_prefix old rest :
  old <> [] -> remove_all old (old ++ rest) = remove_all old rest.
Proof.
  destruct old as [|c old]; [congruence|]. intros _.
  unfold remove_all.
  change (remove_from (c :: old) 0 ((c :: old) ++ rest))
    with (if startswith (c :: old) ((c :: old) ++ rest)
          then remove_from (c :: old) (List.length (c :: old) - 1) (old ++ rest)
          else c :: remove_from (c :: old) 0 (old ++ rest)).
  rewrite startswith_app.
  replace (List.length (c :: old) - 1) with (List.length old) by (simpl; lia).
  apply remove_from_skip.
Qed.

(** A string without an occurrence is left as it is. *)
Lemma remove_all_absent old : forall hay, ~ occurs_in old hay -> remove_all old hay = hay.
Proof.
  destruct old as [|c old]; [reflexivity|].
  unfold remove_all. induction hay as [|x hay IH]; intros H; [reflexivity|].
  cbn [remove_from].
  destruct (startswith (c :: old) (x :: hay)) eqn:E.
  - exfalso. apply H. apply startswith_spec in E. destruct E as [t ->].
    now exists [], t.
  - f_equal. apply IH. intros [pre [post ->]]. apply H.
    now exists (x :: pre), post.
Qed.

End Replace.

Section ReadLoop.
Import PyStr PyStrFacts.

Variable self : Simulator.

Lemma find_marker_none r :
  unmarked self r ->
  find (fun err => contains err (line_of r)) (sim_errors self) = None.
Proof.
  intros H. apply find_none_iff. intros err Herr.
  apply contains_false. now apply H.
Qed.

Lemma read_loop_through r rs :
  lets_through self r ->
  read_loop self (r :: rs) = loop_next (line_of r) (read_loop self rs).
Proof.
  intros [Hb Hm]. destruct r as [raw exited]. cbn [read_loop].
  change (strip raw) with (line_of (raw, exited)).
  destruct (eqb (line_of (raw, exited)) [] && exited) eqn:E.
  - exfalso. apply Hb. apply andb_true_iff in E. destruct E as [E1 E2].
    apply eqb_eq in E1. now split.
  - now rewrite (find_marker_none (raw, exited) Hm).
Qed.

(** The reads that are let through are counted and echoed, and the loop
    goes on with what follows. *)
Lemma read_loop_app before rest :
  Forall (lets_through self) before ->
  echoed (read_loop self (before ++ rest))
  = echo_of before ++ echoed (read_loop self rest) /\
  consumed (read_loop self (before ++ rest))
  = List.length before + consumed (read_loop self rest) /\
  killed (read_loop self (before ++ rest)) = killed (read_loop self rest) /\
  failure (read_loop self (before ++ rest)) = failure (read_loop self rest).
Proof.
  induction 1 as [|r before Hr _ IH]; [now repeat split|].
  destruct IH as [IH1 [IH2 [IH3 IH4]]].
  rewrite <- app_comm_cons, read_loop_through by assumption.
  unfold loop_next; cbn [echoed consumed killed failure].
  rewrite IH1, IH2, IH3, IH4. repeat split.
  unfold echo_of. cbn [map filter].
  destruct (line_of r) as [|ch l]; reflexivity.
Qed.

(** A read whose line holds a marker raises; the marker that is removed
    is the first of the list that occurs in the line. *)
Lemma read_loop_marked raw exited after :
  (forall err, In err (sim_errors self) -> err <> []) ->
  (exists err, In err (sim_errors self) /\ occurs_in err (strip raw)) ->
  exists first earlier later,
    sim_errors self = earlier ++ first :: later /\
    occurs_in first (strip raw) /\
    (forall m, In m earlier -> ~ occurs_in m (strip raw)) /\
    read_loop self ((raw, exited) :: after)
    = loop_raise (AssertionError (remove_all first (strip raw)) (defines self)).
Proof.
  intros Hne [err [Herr Hocc]]. cbn [read_loop].
  assert (Hline : eqb (strip raw) [] = false).
  { apply eqb_neq. intros E. rewrite E in Hocc.
    destruct Hocc as [pre [post Hp]].
    apply (Hne err Herr). destruct pre; [destruct err|]; [reflexivity | discriminate..]. }
  rewrite Hline. cbn [andb].
  destruct (find (fun e => contains e (strip raw)) (sim_errors self)) as [first|] eqn:E.
  - apply find_some_iff in E. destruct E as [earlier [later [Hs [Hf He]]]].
    exists first, earlier, later. split; [assumption|]. split; [|split].
    + now apply contains_spec.
    + intros m Hm. apply contains_false. now apply He.
    + reflexivity.
  - exfalso. rewrite find_none_iff in E. specialize (E err Herr).
    apply contains_false in E. contradiction.
Qed.


End ReadLoop.

Lemma fixed_markers_nonempty err : In err fixed_markers -> err <> [].
Proof. intros [<-|[<-|[<-|[<-|[]]]]]; discriminate. Qed.

(** C1, as the claim states it, fails: the line [ERROR: ] holds the marker
    [ERROR: ], but the runner strips the line before it scans it, finds no
    marker in [ERROR:], echoes that, reads on and returns normally. *)
Lemma exec_misses_a_marker_that_ends_the_line :
  In s["ERROR: "] fixed_markers /\
  occurs_in s["ERROR: "] (s["ERROR: "] ++ [LF]) /\
  raised (Simulator_exec (configured s["icarus"] [] [] [] [])
            s["vvp"] s["worklib.vvp -lxt2"]
            {| reads := [ (s["ERROR: "] ++ [LF], false) ]; returncode := 0 |})
  = None /\
  child_killed (Simulator_exec (configured s["icarus"] [] [] [] [])
                  s["vvp"] s["worklib.vvp -lxt2"]
                  {| reads := [ (s["ERROR: "] ++ [LF], false) ]; returncode := 0 |})
  = false /\
  console (Simulator_exec (configured s["icarus"] [] [] [] [])
             s["vvp"] s["worklib.vvp -lxt2"]
             {| reads := [ (s["ERROR: "] ++ [LF], false) ]; returncode := 0 |})
  = [s["vvp worklib.vvp -lxt2"]; s["ERROR:"]].
Proof.
  split; [simpl; tauto|]. split; [exists [], [LF]; reflexivity|].
  repeat split.
Qed.

(** C1, amended.  The line of a read is the text that the runner examines:
    decoded, with the white space at both ends stripped.  When the loop
    reaches a read in whose line one of the
    four markers occurs, [_exec] kills the child, reads nothing more and
    raises [AssertionError]: it carries the line without the occurrences of
    the first marker of the list that occurs in it, and the defines.  For
    the line [ERROR: something bad] it carries [something bad]. *)
Theorem exec_raises_on_marked_line :
  forall (self : Simulator) (prog args : str) (c : child)
         (before after : list (str * bool)) (raw : str) (exited : bool) (err : str),
    sim_errors self = fixed_markers ->
    reads c = before ++ (raw, exited) :: after ->
    Forall (lets_through self) before ->
    In err fixed_markers ->
    occurs_in err (PyStr.strip raw) ->
    (exists first earlier later,
        fixed_markers = earlier ++ first :: later /\
        occurs_in first (PyStr.strip raw) /\
        (forall m, In m earlier -> ~ occurs_in m (PyStr.strip raw)) /\
        raised (Simulator_exec self prog args c)
        = Some (AssertionError (PyStr.remove_all first (PyStr.strip raw))
                               (defines self))) /\
    child_killed (Simulator_exec self prog args c) = true /\
    lines_read (Simulator_exec self prog args c) = S (List.length before) /\
    console (Simulator_exec self prog args c)
    = (prog ++ s[" "] ++ args) :: echo_of before /\
    self_after (Simulator_exec self prog args c) = self /\
    raised (Simulator_exec (configured s["icarus"] [] (defines self) [] [])
              s["vvp"] s["worklib.vvp -lxt2"]
              {| reads := [ (s["ERROR: something bad"] ++ [LF], false);
                            (s["not read"] ++ [LF], false) ];
                 returncode := 0 |})
    = Some (AssertionError s["something bad"] (defines self)).
Proof.
  intros self prog args c before after raw exited err Hm Hr Hb Herr Hocc.
  destruct (read_loop_marked self raw exited after) as
    [first [earlier [later [Hs [Hf [He Hl]]]]]].
  { rewrite Hm. apply fixed_markers_nonempty. }
  { exists err. rewrite Hm. now split. }
  destruct (read_loop_app self before ((raw, exited) :: after) Hb)
    as [A1 [A2 [A3 A4]]].
  rewrite Hl in A1, A2, A3, A4. cbn [loop_raise echoed consumed killed failure] in *.
  unfold Simulator_exec. rewrite Hr, A4.
  cbn [raised child_killed lines_read console self_after].
  rewrite A1, A2, A3, app_nil_r, Nat.add_1_r.
  split; [|repeat split].
  exists first, earlier, later. rewrite <- Hm. now repeat split.
Qed.

Lemma exec_raises_on_marked_line_witness :
  raised (Simulator_exec (configured s["icarus"] [] [s["WIDTH=8"]] [] [])
            s["vvp"] s["worklib.vvp -lxt2"]
            {| reads := [ (s["VCD info: dumpfile dump.vcd opened"] ++ [LF], false);
                          ([LF], false);
                          (s["  ERROR: something bad "] ++ [LF], false);
                          (s["never read"] ++ [LF], true) ];
               returncode := 0 |})
  = Some (AssertionError s["something bad"] [s["WIDTH=8"]]) /\
  lines_read (Simulator_exec (configured s["icarus"] [] [s["WIDTH=8"]] [] [])
                s["vvp"] s["worklib.vvp -lxt2"]
                {| reads := [ (s["VCD info: dumpfile dump.vcd opened"] ++ [LF], false);
                              ([LF], false);
                              (s["  ERROR: something bad "] ++ [LF], false);
                              (s["never read"] ++ [LF], true) ];
                   returncode := 0 |})
  = 3.
Proof.
  assert (Hb : Forall (lets_through (configured s["icarus"] [] [s["WIDTH=8"]] [] []))
                 [ (s["VCD info: dumpfile dump.vcd opened"] ++ [LF], false);
                   ([LF], false) ]).
  { repeat constructor.
    - intros [H _]. discriminate H.
    - intros e [<-|[<-|[<-|[<-|[]]]]]; apply PyStrFacts.contains_false; reflexivity.
    - intros [_ H]. discriminate H.
    - intros e [<-|[<-|[<-|[<-|[]]]]]; apply PyStrFacts.contains_false; reflexivity. }
  assert (Ho : occurs_in s["ERROR: "] (PyStr.strip (s["  ERROR: something bad "] ++ [LF]))).
  { apply PyStrFacts.contains_spec. reflexivity. }
  destruct (exec_raises_on_marked_line
              (configured s["icarus"] [] [s["WIDTH=8"]] [] [])
              s["vvp"] s["worklib.vvp -lxt2"]
              {| reads := [ (s["VCD info: dumpfile dump.vcd opened"] ++ [LF], false);
                            ([LF], false);
                            (s["  ERROR: something bad "] ++ [LF], false);
                            (s["never read"] ++ [LF], true) ];
                 returncode := 0 |}
              [ (s["VCD info: dumpfile dump.vcd opened"] ++ [LF], false);
                ([LF], false) ]
              [ (s["never read"] ++ [LF], true) ]
              (s["  ERROR: something bad "] ++ [LF]) false s["ERROR: "]
              eq_refl eq_refl Hb
              (or_intror (or_intror (or_introl eq_refl))) Ho)
    as [_ [_ [H3 _]]].
  split; [reflexivity | exact H3].
Defined.

(** C2: the code at the input on which it departs from the claim.  The
    child prints [first], a blank line and [ERROR: late], and has exited
    when the blank line is read.  The stripped blank line is [''], as at the
    end of the stream, so the loop ends after two of the three lines: the
    third is neither scanned nor echoed and [_exec] returns normally. *)
Theorem exec_stops_at_blank_line_of_exited_child :
  List.length (reads child_with_blank_line) = 3 /\
  lines_read (Simulator_exec (configured s["icarus"] [] [] [] [])
                s["vvp"] s["worklib.vvp -lxt2"] child_with_blank_line) = 2 /\
  console (Simulator_exec (configured s["icarus"] [] [] [] [])
             s["vvp"] s["worklib.vvp -lxt2"] child_with_blank_line)
  = [s["vvp worklib.vvp -lxt2"]; s["first"]] /\
  child_killed (Simulator_exec (configured s["icarus"] [] [] [] [])
                  s["vvp"] s["worklib.vvp -lxt2"] child_with_blank_line) = false /\
  raised (Simulator_exec (configured s["icarus"] [] [] [] [])
            s["vvp"] s["worklib.vvp -lxt2"] child_with_blank_line) = None.
Proof. repeat split. Qed.



(** The runner scans the stripped line: a marker that ends in a blank is
not found when nothing follows it on the line. *)
Example marker_at_the_end_of_a_line :
  PyStr.strip (s["ERROR: "] ++ [LF]) = s["ERROR:"] /\
  raised (Simulator_exec (configured s["icarus"] [] [] [] [])
            s["vvp"] s["worklib.vvp -lxt2"]
            {| reads := [ (s["ERROR: "] ++ [LF], false) ]; returncode := 0 |})
  = None.
Proof. split; reflexivity. Qed.

(** ** Workspace setup *)

Section Workspace.
Import PyStr PyStrFacts.

Lemma d_lookup_snoc_new nm n : forall es,
  d_lookup nm es = None -> d_lookup nm (d_snoc es nm n) = Some n.
Proof.
  induction es as [|k m rest IH]; simpl; intros H.
  - now rewrite eqb_refl.
  - destruct (eqb k nm); [discriminate | now apply IH].
Qed.

Lemma d_lookup_del nm : forall es, d_lookup nm (d_del nm es) = None.
Proof.
  induction es as [|k m rest IH]; simpl; [reflexivity|].
  destruct (eqb k nm) eqn:E; [assumption|]. simpl. now rewrite E.
Qed.

Lemma d_del_absent nm : forall es, d_lookup nm es = None -> d_del nm es = es.
Proof.
  induction es as [|k m rest IH]; simpl; intros H; [reflexivity|].
  destruct (eqb k nm); [discriminate|]. now rewrite IH.
Qed.

Lemma d_del_snoc nm n : forall es, d_del nm (d_snoc es nm n) = d_del nm es.
Proof.
  induction es as [|k m rest IH]; simpl.
  - now rewrite eqb_refl.
  - destruct (eqb k nm); [assumption | now rewrite IH].
Qed.

Lemma d_lookup_set nm n : forall es m,
  d_lookup nm es = Some m -> d_lookup nm (d_set nm n es) = Some n.
Proof.
  induction es as [|k x rest IH]; simpl; intros m H; [discriminate|].
  destruct (eqb k nm) eqn:E; simpl; rewrite E; [reflexivity | now apply IH with m].
Qed.

Lemma d_set_set nm n m : forall es, d_set nm n (d_set nm m es) = d_set nm n es.
Proof.
  induction es as [|k x rest IH]; simpl; [reflexivity|].
  destruct (eqb k nm) eqn:E; simpl; rewrite E; [reflexivity | now rewrite IH].
Qed.

(** Removing a tree of regular files and directories leaves nothing. *)
Lemma remove_plain :
  (forall n, plain n = true ->
             forall es, n = Dir es -> remove_node n = (None, None)) /\
  (forall es, plain_entries es = true -> remove_children es = (dnil, None)).
Proof.
  apply node_dirents_mutind.
  - discriminate.
  - discriminate.
  - intros es IH H es' _. simpl in *. now rewrite IH.
  - reflexivity.
  - intros nm n IHn rest IHrest H. simpl in H.
    apply andb_true_iff in H. destruct H as [Hn Hrest].
    destruct n as [| |sub].
    + simpl. now apply IHrest.
    + discriminate.
    + cbn [remove_children]. rewrite (IHn Hn sub eq_refl). now apply IHrest.
Qed.

Lemma workspace_setup_fresh nm es :
  d_lookup nm es = None ->
  workspace_setup es [nm] = (d_snoc es nm (Dir dnil), None).
Proof.
  intros H. unfold workspace_setup. simpl. now rewrite !H.
Qed.

Lemma workspace_setup_plain nm es sub :
  d_lookup nm es = Some (Dir sub) -> plain_entries sub = true ->
  workspace_setup es [nm] = (d_snoc (d_del nm es) nm (Dir dnil), None).
Proof.
  intros H Hp. unfold workspace_setup. cbn [remove_tree]. rewrite H.
  rewrite (proj1 remove_plain (Dir sub) Hp sub eq_refl).
  simpl. now rewrite d_lookup_del.
Qed.

(** Setup below a directory is setup inside that directory. *)
Lemma workspace_setup_cons nm q p es sub :
  d_lookup nm es = Some (Dir sub) ->
  workspace_setup es (nm :: q :: p)
  = (d_set nm (Dir (fst (workspace_setup sub (q :: p)))) es,
     snd (workspace_setup sub (q :: p))).
Proof.
  intros H. unfold workspace_setup.
  change (remove_tree es (nm :: q :: p))
    with (match d_lookup nm es with
          | None => (es, None)
          | Some n =>
              match n with
              | Dir sub0 =>
                  let '(sub', e) := remove_tree sub0 (q :: p) in
                  (d_set nm (Dir sub') es, e)
              | _ => (es, None)
              end
          end).
  rewrite H. destruct (remove_tree sub (q :: p)) as [subr [e|]]; [reflexivity|].
  change (make_dir (d_set nm (Dir subr) es) (nm :: q :: p))
    with (match d_lookup nm (d_set nm (Dir subr) es) with
          | None => (d_set nm (Dir subr) es, Some FileNotFoundError)
          | Some (Dir sub0) =>
              let '(sub', e) := make_dir sub0 (q :: p) in
              (d_set nm (Dir sub') (d_set nm (Dir subr) es), e)
          | Some _ => (d_set nm (Dir subr) es, Some NotADirectoryError)
          end).
  rewrite (d_lookup_set nm (Dir subr) es (Dir sub) H).
  destruct (make_dir subr (q :: p)) as [sub1 e]. simpl. now rewrite d_set_set.
Qed.

Lemma workspace_setup_ready :
  forall p es, ready es p = true ->
    exists es1,
      workspace_setup es p = (es1, None) /\
      resolve es1 p = Some (Dir dnil) /\
      workspace_setup es1 p = (es1, None).
Proof.
  induction p as [|nm p IH]; intros es H; [discriminate|].
  destruct p as [|q p].
  - assert (Hfresh : forall es0, d_lookup nm es0 = None ->
              exists es1, workspace_setup es0 [nm] = (es1, None) /\
                          es1 = d_snoc es0 nm (Dir dnil) /\
                          resolve es1 [nm] = Some (Dir dnil) /\
                          workspace_setup es1 [nm] = (es1, None)).
    { intros es0 H0. exists (d_snoc es0 nm (Dir dnil)).
      split; [now apply workspace_setup_fresh|]. split; [reflexivity|]. split.
      - unfold resolve. simpl. now rewrite d_lookup_snoc_new.
      - rewrite (workspace_setup_plain nm _ dnil);
          [|now apply d_lookup_snoc_new|reflexivity].
        now rewrite d_del_snoc, d_del_absent. }
    simpl in H. destruct (d_lookup nm es) as [n|] eqn:E.
    + destruct n as [| |sub]; try discriminate.
      destruct (Hfresh (d_del nm es) (d_lookup_del nm es)) as [es1 [_ [-> [H2 H3]]]].
      exists (d_snoc (d_del nm es) nm (Dir dnil)).
      split; [now apply workspace_setup_plain with sub|]. now split.
    + destruct (Hfresh es E) as [es1 [H1 [_ [H2 H3]]]]. now exists es1.
  - cbn [ready] in H. destruct (d_lookup nm es) as [n|] eqn:E; [|discriminate].
    destruct n as [| |sub]; try discriminate.
    destruct (IH sub H) as [sub1 [H1 [H2 H3]]].
    exists (d_set nm (Dir sub1) es).
    assert (E1 : d_lookup nm (d_set nm (Dir sub1) es) = Some (Dir sub1))
      by now apply d_lookup_set with (Dir sub).
    split; [|split].
    + rewrite (workspace_setup_cons nm q p es sub E). now rewrite H1.
    + unfold resolve in *. cbn [resolve_node]. now rewrite E1.
    + rewrite (workspace_setup_cons nm q p _ sub1 E1). rewrite H3. simpl.
      now rewrite d_set_set.
Qed.

Lemma workspace_ready_computed :
  forall p es, workspace_ready es p -> ready es p = true.
Proof.
  unfold workspace_ready, resolve.
  induction p as [|nm p IH]; intros es [Hne [[sib Hpar] Htgt]]; [congruence|].
  destruct p as [|q p].
  - simpl in *. destruct (d_lookup nm es) as [n|]; [|reflexivity].
    destruct Htgt as [Ht | [entries [Ht Hp]]]; [discriminate|].
    injection Ht as ->. exact Hp.
  - cbn [ready].
    change (removelast (nm :: q :: p)) with (nm :: removelast (q :: p)) in Hpar.
    cbn [resolve_node] in Hpar, Htgt.
    destruct (d_lookup nm es) as [n|]; [|discriminate].
    destruct n as [| |sub].
    + destruct (removelast (q :: p)); discriminate.
    + destruct (removelast (q :: p)); discriminate.
    + apply IH. split; [discriminate|]. split; [now exists sib | exact Htgt].
Qed.

End Workspace.

(** C8.  Let the parent of the working directory be a directory, and let
    the path name nothing or a directory of regular files and directories,
    nested to any depth.  Then setup succeeds and leaves an empty directory
    at the path, and a second setup succeeds and leaves the same state of
    the file system: setup is idempotent. *)
Theorem workspace_setup_idempotent :
  forall (es : fs) (cwd : path),
    workspace_ready es cwd ->
    exists es1,
      workspace_setup es cwd = (es1, None) /\
      resolve es1 cwd = Some (Dir dnil) /\
      workspace_setup es1 cwd = (es1, None) /\
      workspace_setup (fst (workspace_setup es cwd)) cwd = workspace_setup es cwd.
Proof.
  intros es cwd H. apply workspace_ready_computed in H.
  destruct (workspace_setup_ready cwd es H) as [es1 [H1 [H2 H3]]].
  exists es1. repeat split; try assumption. rewrite H1. simpl. exact H3.
Qed.

Lemma workspace_setup_idempotent_witness :
  exists es1,
    workspace_setup used_workspace [s["home"]; s["work"]] = (es1, None) /\
    resolve es1 [s["home"]; s["work"]] = Some (Dir dnil) /\
    workspace_setup es1 [s["home"]; s["work"]] = (es1, None) /\
    workspace_setup (fst (workspace_setup used_workspace [s["home"]; s["work"]]))
                    [s["home"]; s["work"]]
    = workspace_setup used_workspace [s["home"]; s["work"]].
Proof.
  apply (workspace_setup_idempotent used_workspace [s["home"]; s["work"]]).
  split; [discriminate|]. split.
  - eexists. reflexivity.
  - right. eexists. split; reflexivity.
Defined.

(** Outside these conditions setup raises: the parent is missing, the path
names a regular file, or the directory holds a FIFO, which is neither a
regular file nor a directory. *)
Example workspace_setup_failures :
  snd (workspace_setup used_workspace [s["build"]; s["work"]]) = Some FileNotFoundError /\
  snd (workspace_setup used_workspace [s["home"]; s["pyhdlsim.py"]]) = Some FileExistsError /\
  snd (workspace_setup
         (dcons s["work"] (Dir (dcons s["pipe"] Special dnil)) dnil) [s["work"]])
  = Some DirectoryNotEmpty.
Proof. repeat split. Qed.

(** * Further properties of the code *)

(** ** The file system operations *)

Section FileSystem.
Import PyStr PyStrFacts.

Lemma d_set_same nm n : forall es, d_lookup nm es = Some n -> d_set nm n es = es.
Proof.
  induction es as [|k x rest IH]; simpl; intros H; [reflexivity|].
  destruct (eqb k nm); [now injection H as -> | now rewrite IH].
Qed.

Lemma d_lookup_set_other nm k n :
  k <> nm -> forall es, d_lookup k (d_set nm n es) = d_lookup k es.
Proof.
  intros Hk. induction es as [|j x rest IH]; simpl; [reflexivity|].
  destruct (eqb j nm) eqn:E; simpl.
  - apply eqb_eq in E. subst j.
    assert (E2 : eqb nm k = false) by (apply eqb_neq; congruence).
    now rewrite E2.
  - destruct (eqb j k); [reflexivity | exact IH].
Qed.

Lemma d_lookup_del_other nm k :
  k <> nm -> forall es, d_lookup k (d_del nm es) = d_lookup k es.
Proof.
  intros Hk. induction es as [|j x rest IH]; simpl; [reflexivity|].
  destruct (eqb j nm) eqn:E; simpl.
  - apply eqb_eq in E. subst j.
    assert (E2 : eqb nm k = false) by (apply eqb_neq; congruence).
    now rewrite E2.
  - destruct (eqb j k); [reflexivity | exact IH].
Qed.

Lemma d_lookup_snoc_other nm k n :
  k <> nm -> forall es, d_lookup k (d_snoc es nm n) = d_lookup k es.
Proof.
  intros Hk. induction es as [|j x rest IH]; simpl.
  - assert (E2 : eqb nm k = false) by (apply eqb_neq; congruence).
    now rewrite E2.
  - destruct (eqb j k); [reflexivity | exact IH].
Qed.

Lemma resolve_cons es nm p :
  resolve es (nm :: p)
  = match d_lookup nm es with Some m => resolve_node m p | None => None end.
Proof. reflexivity. Qed.

Lemma resolve_node_below m q p sub :
  resolve_node m (q :: p) = Some sub -> exists es, m = Dir es.
Proof. destruct m; simpl; try discriminate. intros _. now eexists. Qed.

(** What [remove_tree] makes of a directory: it is gone, or it is still
there and an exception was raised. *)
Lemma remove_node_dir es :
  remove_node (Dir es) = (None, None) \/
  exists kept e, remove_node (Dir es) = (Some (Dir kept), Some e).
Proof.
  simpl. destruct (remove_children es) as [kept [e|]].
  - right. exists kept, e. now destruct kept.
  - destruct kept; [now left | right; eauto].
Qed.

Lemma remove_success_plain :
  (forall n es, n = Dir es -> remove_node n = (None, None) -> plain_entries es = true) /\
  (forall es, remove_children es = (dnil, None) -> plain_entries es = true).
Proof.
  apply node_dirents_mutind.
  - discriminate.
  - discriminate.
  - intros es IH es' [= <-] H. simpl in H.
    destruct (remove_children es) as [kept [e|]].
    + destruct kept; discriminate.
    + destruct kept; [now apply IH | discriminate].
  - reflexivity.
  - intros nm n IHn rest IHrest H. cbn [remove_children] in H.
    destruct n as [| |sub].
    + simpl. now apply IHrest.
    + simpl in H. destruct (remove_children rest); discriminate.
    + destruct (remove_node_dir sub) as [E | [kept [e E]]]; rewrite E in H.
      * simpl. rewrite (IHn sub eq_refl E). now apply IHrest.
      * discriminate.
Qed.

Lemma remove_tree_dir_at :
  forall p es sub,
    p <> [] -> resolve es p = Some (Dir sub) ->
    (snd (remove_tree es p) = None <-> plain_entries sub = true) /\
    (snd (remove_tree es p) = None -> resolve (fst (remove_tree es p)) p = None).
Proof.
  induction p as [|nm p IH]; intros es sub Hne H; [congruence|].
  rewrite resolve_cons in H. destruct (d_lookup nm es) as [m|] eqn:E; [|discriminate].
  destruct p as [|q p].
  - simpl in H. injection H as ->. cbn [remove_tree]. rewrite E.
    destruct (remove_node_dir sub) as [R | [kept [e R]]]; rewrite R; cbn [fst snd].
    + split.
      * split; [intros _|reflexivity].
        now apply (proj1 remove_success_plain (Dir sub) sub eq_refl).
      * intros _. rewrite resolve_cons. now rewrite d_lookup_del.
    + split; [|discriminate]. split; [discriminate|].
      intros Hp. rewrite (proj1 remove_plain (Dir sub) Hp sub eq_refl) in R.
      discriminate.
  - destruct (resolve_node_below m q p _ H) as [s1 ->].
    change (remove_tree es (nm :: q :: p))
      with (match d_lookup nm es with
            | None => (es, None)
            | Some n =>
                match n with
                | Dir sub0 =>
                    let '(sub', e) := remove_tree sub0 (q :: p) in
                    (d_set nm (Dir sub') es, e)
                | _ => (es, None)
                end
            end).
    rewrite E. destruct (IH s1 sub ltac:(discriminate) H) as [I1 I2].
    destruct (remove_tree s1 (q :: p)) as [s1' e]. cbn [fst snd] in *.
    split; [exact I1|]. intros He. rewrite resolve_cons.
    rewrite (d_lookup_set nm (Dir s1') es (Dir s1) E). now apply I2.
Qed.

Lemma remove_tree_not_dir :
  forall p es, (forall sub, resolve es p <> Some (Dir sub)) -> remove_tree es p = (es, None).
Proof.
  induction p as [|nm p IH]; intros es H.
  - exfalso. now apply (H es).
  - destruct p as [|q p].
    + cbn [remove_tree]. rewrite resolve_cons in H.
      destruct (d_lookup nm es) as [m|] eqn:E; [|reflexivity].
      destruct m as [| |sub]; simpl.
      * now rewrite d_set_same.
      * now rewrite d_set_same.
      * exfalso. now apply (H sub).
    + change (remove_tree es (nm :: q :: p))
        with (match d_lookup nm es with
              | None => (es, None)
              | Some n =>
                  match n with
                  | Dir sub0 =>
                      let '(sub', e) := remove_tree sub0 (q :: p) in
                      (d_set nm (Dir sub') es, e)
                  | _ => (es, None)
                  end
              end).
      rewrite resolve_cons in H.
      destruct (d_lookup nm es) as [m|] eqn:E; [|reflexivity].
      destruct m as [| |s1]; try reflexivity.
      rewrite (IH s1 H). now rewrite d_set_same.
Qed.

Lemma make_dir_cons nm q p es :
  make_dir es (nm :: q :: p)
  = match d_lookup nm es with
    | None => (es, Some FileNotFoundError)
    | Some (Dir sub) =>
        let '(sub', e) := make_dir sub (q :: p) in (d_set nm (Dir sub') es, e)
    | Some _ => (es, Some NotADirectoryError)
    end.
Proof. reflexivity. Qed.

Lemma remove_tree_cons nm q p es :
  remove_tree es (nm :: q :: p)
  = match d_lookup nm es with
    | None => (es, None)
    | Some (Dir sub) =>
        let '(sub', e) := remove_tree sub (q :: p) in (d_set nm (Dir sub') es, e)
    | Some _ => (es, None)
    end.
Proof. simpl. destruct (d_lookup nm es) as [[| |sub]|]; reflexivity. Qed.

Lemma make_dir_failure_unchanged :
  forall p es e, snd (make_dir es p) = Some e -> fst (make_dir es p) = es.
Proof.
  induction p as [|nm p IH]; intros es e H; [reflexivity|].
  destruct p as [|q p].
  - simpl in *. destruct (d_lookup nm es); [reflexivity | discriminate].
  - rewrite make_dir_cons in *.
    destruct (d_lookup nm es) as [[| |sub]|] eqn:E; try reflexivity.
    specialize (IH sub e). destruct (make_dir sub (q :: p)) as [sub' e'].
    cbn [fst snd] in *. rewrite (IH H). now apply d_set_same.
Qed.

Lemma make_dir_exists :
  forall p es n, resolve es p = Some n -> make_dir es p = (es, Some FileExistsError).
Proof.
  induction p as [|nm p IH]; intros es n H; [reflexivity|].
  rewrite resolve_cons in H. destruct (d_lookup nm es) as [m|] eqn:E; [|discriminate].
  destruct p as [|q p].
  - simpl. now rewrite E.
  - rewrite make_dir_cons, E. destruct (resolve_node_below m q p _ H) as [sub ->].
    rewrite (IH sub n H). now rewrite d_set_same.
Qed.

Lemma make_dir_success :
  forall p es,
    snd (make_dir es p) = None <->
    p <> [] /\ resolve es p = None /\
    exists siblings, resolve es (removelast p) = Some (Dir siblings).
Proof.
  induction p as [|nm p IH]; intros es.
  - simpl. split; [discriminate | intros [H _]; congruence].
  - destruct p as [|q p].
    + simpl. rewrite resolve_cons. simpl.
      destruct (d_lookup nm es) as [m|]; cbn [snd].
      * split; [discriminate | intros [_ [H _]]; discriminate].
      * split; [intros _ | reflexivity].
        split; [discriminate|]. split; [reflexivity | now exists es].
    + rewrite make_dir_cons.
      change (removelast (nm :: q :: p)) with (nm :: removelast (q :: p)).
      rewrite !resolve_cons.
      destruct (d_lookup nm es) as [[| |sub]|] eqn:E; cbn [snd].
      * split; [discriminate|]. intros [_ [_ [sib H]]].
        destruct (removelast (q :: p)); discriminate.
      * split; [discriminate|]. intros [_ [_ [sib H]]].
        destruct (removelast (q :: p)); discriminate.
      * specialize (IH sub). destruct (make_dir sub (q :: p)) as [sub' e].
        cbn [snd] in *. rewrite IH. unfold resolve.
        split; intros [_ H]; (split; [discriminate | exact H]).
      * split; [discriminate|]. intros [_ [_ [sib H]]]. discriminate.
Qed.

Lemma make_dir_made :
  forall p es, snd (make_dir es p) = None ->
               resolve (fst (make_dir es p)) p = Some (Dir dnil).
Proof.
  induction p as [|nm p IH]; intros es H; [discriminate|].
  destruct p as [|q p].
  - simpl in *. destruct (d_lookup nm es) eqn:E; [discriminate|].
    cbn [fst]. rewrite resolve_cons. now rewrite d_lookup_snoc_new.
  - rewrite make_dir_cons in *.
    destruct (d_lookup nm es) as [[| |sub]|] eqn:E; try discriminate.
    specialize (IH sub). destruct (make_dir sub (q :: p)) as [sub' e].
    cbn [fst snd] in *. rewrite resolve_cons.
    rewrite (d_lookup_set nm (Dir sub') es (Dir sub) E). now apply IH.
Qed.

Lemma make_dir_parent_no_directory :
  forall p es,
    (forall siblings, resolve es (removelast p) <> Some (Dir siblings)) ->
    make_dir es p = (es, Some FileNotFoundError) \/
    make_dir es p = (es, Some NotADirectoryError).
Proof.
  induction p as [|nm p IH]; intros es H; [exfalso; now apply (H es)|].
  destruct p as [|q p]; [exfalso; now apply (H es)|].
  change (removelast (nm :: q :: p)) with (nm :: removelast (q :: p)) in H.
  rewrite make_dir_cons.
  destruct (d_lookup nm es) as [[| |sub]|] eqn:E; [now right | now right | | now left].
  assert (Hs : forall siblings,
             resolve sub (removelast (q :: p)) <> Some (Dir siblings)).
  { intros siblings Hr. apply (H siblings). rewrite resolve_cons, E. exact Hr. }
  destruct (IH sub Hs) as [R | R]; rewrite R; rewrite d_set_same by assumption; tauto.
Qed.

(** *** What lies apart from a path is not touched *)

Lemma apart_nil_l q : ~ apart [] q.
Proof. intros [H _]. apply H. now exists q. Qed.

Lemma apart_nil_r p : ~ apart p [].
Proof. intros [_ H]. apply H. now exists p. Qed.

Lemma apart_cons nm p q : apart (nm :: p) (nm :: q) -> apart p q.
Proof.
  intros [H1 H2]. split; intros [r ->]; [apply H1 | apply H2]; now exists r.
Qed.

Lemma remove_tree_first nm p es :
  fst (remove_tree es (nm :: p)) = es \/
  fst (remove_tree es (nm :: p)) = d_del nm es \/
  exists x, fst (remove_tree es (nm :: p)) = d_set nm x es.
Proof.
  destruct p as [|q p].
  - cbn [remove_tree]. destruct (d_lookup nm es) as [m|]; [|now left].
    destruct (remove_node m) as [[n'|] e]; cbn [fst]; [right; right; eauto | tauto].
  - rewrite remove_tree_cons.
    destruct (d_lookup nm es) as [[| |sub]|]; try now left.
    destruct (remove_tree sub (q :: p)) as [sub' e]. right. right. now eexists.
Qed.

Lemma make_dir_first nm p es :
  fst (make_dir es (nm :: p)) = es \/
  fst (make_dir es (nm :: p)) = d_snoc es nm (Dir dnil) \/
  exists x, fst (make_dir es (nm :: p)) = d_set nm x es.
Proof.
  destruct p as [|q p].
  - simpl. destruct (d_lookup nm es); tauto.
  - rewrite make_dir_cons.
    destruct (d_lookup nm es) as [[| |sub]|]; try now left.
    destruct (make_dir sub (q :: p)) as [sub' e]. right. right. now eexists.
Qed.

Lemma remove_tree_frame :
  forall p es q, apart p q -> resolve (fst (remove_tree es p)) q = resolve es q.
Proof.
  induction p as [|nm p IH]; intros es q H; [now apply apart_nil_l in H|].
  destruct q as [|k q]; [now apply apart_nil_r in H|].
  rewrite !resolve_cons.
  destruct (list_eq_dec ascii_dec k nm) as [->|Hk].
  - apply apart_cons in H.
    destruct p as [|p1 p]; [now apply apart_nil_l in H|].
    rewrite remove_tree_cons.
    destruct (d_lookup nm es) as [[| |sub]|] eqn:E; cbn [fst]; rewrite ?E; try reflexivity.
    specialize (IH sub q H). destruct (remove_tree sub (p1 :: p)) as [sub' e].
    cbn [fst] in *. rewrite (d_lookup_set nm (Dir sub') es (Dir sub) E).
    destruct q as [|q1 q]; [now apply apart_nil_r in H|]. exact IH.
  - destruct (remove_tree_first nm p es) as [-> | [-> | [x ->]]].
    + reflexivity.
    + now rewrite d_lookup_del_other.
    + now rewrite d_lookup_set_other.
Qed.

Lemma make_dir_frame :
  forall p es q, apart p q -> resolve (fst (make_dir es p)) q = resolve es q.
Proof.
  induction p as [|nm p IH]; intros es q H; [now apply apart_nil_l in H|].
  destruct q as [|k q]; [now apply apart_nil_r in H|].
  rewrite !resolve_cons.
  destruct (list_eq_dec ascii_dec k nm) as [->|Hk].
  - apply apart_cons in H.
    destruct p as [|p1 p]; [now apply apart_nil_l in H|].
    rewrite make_dir_cons.
    destruct (d_lookup nm es) as [[| |sub]|] eqn:E; cbn [fst]; rewrite ?E; try reflexivity.
    specialize (IH sub q H). destruct (make_dir sub (p1 :: p)) as [sub' e].
    cbn [fst] in *. rewrite (d_lookup_set nm (Dir sub') es (Dir sub) E).
    destruct q as [|q1 q]; [now apply apart_nil_r in H|]. exact IH.
  - destruct (make_dir_first nm p es) as [-> | [-> | [x ->]]].
    + reflexivity.
    + now rewrite d_lookup_snoc_other.
    + now rewrite d_lookup_set_other.
Qed.

End FileSystem.

Section Parents.

Lemma resolve_parent :
  forall p es n, p <> [] -> resolve es p = Some n ->
                 exists siblings, resolve es (removelast p) = Some (Dir siblings).
Proof.
  induction p as [|nm p IH]; intros es n Hne H; [congruence|].
  destruct p as [|q p]; [now exists es|].
  change (removelast (nm :: q :: p)) with (nm :: removelast (q :: p)).
  rewrite resolve_cons in *. destruct (d_lookup nm es) as [m|]; [|discriminate].
  destruct (resolve_node_below m q p _ H) as [sub ->].
  now apply (IH sub n).
Qed.

End Parents.

(** X1.  [remove_tree] on a path that names a directory succeeds exactly
when the directory holds regular files and directories only, at any
depth.  After a success the path names nothing. *)
Theorem remove_tree_of_a_directory :
  forall (es : fs) (p : path) (sub : dirents),
    p <> [] ->
    resolve es p = Some (Dir sub) ->
    (snd (remove_tree es p) = None <-> plain_entries sub = true) /\
    (snd (remove_tree es p) = None -> resolve (fst (remove_tree es p)) p = None).
Proof.
  intros es p sub Hne H. now apply remove_tree_dir_at.
Qed.

Lemma remove_tree_of_a_directory_witness :
  snd (remove_tree used_workspace [s["home"]; s["work"]]) = None <->
  plain_entries
    (dcons s["worklib.vvp"] File
       (dcons s["xsim.dir"]
          (Dir (dcons s["work"] (Dir (dcons s["top.sdb"] File dnil))
               (dcons s["xelab.pb"] File dnil)))
          (dcons s["compile.tcl"] File dnil))) = true.
Proof.
  apply (remove_tree_of_a_directory used_workspace [s["home"]; s["work"]]
           (dcons s["worklib.vvp"] File
              (dcons s["xsim.dir"]
                 (Dir (dcons s["work"] (Dir (dcons s["top.sdb"] File dnil))
                      (dcons s["xelab.pb"] File dnil)))
                 (dcons s["compile.tcl"] File dnil)))).
  - discriminate.
  - reflexivity.
Defined.

(** X2.  [remove_tree] on a path that names nothing, a regular file or
anything else that is no directory does nothing and raises nothing. *)
Theorem remove_tree_without_a_directory :
  forall (es : fs) (p : path),
    (forall sub, resolve es p <> Some (Dir sub)) ->
    remove_tree es p = (es, None).
Proof. intros es p H. now apply remove_tree_not_dir. Qed.

Lemma remove_tree_without_a_directory_witness :
  remove_tree used_workspace [s["home"]; s["pyhdlsim.py"]] = (used_workspace, None) /\
  remove_tree used_workspace [s["tmp"]; s["work"]] = (used_workspace, None).
Proof.
  split.
  - apply (remove_tree_without_a_directory used_workspace [s["home"]; s["pyhdlsim.py"]]).
    intros sub. discriminate.
  - apply (remove_tree_without_a_directory used_workspace [s["tmp"]; s["work"]]).
    intros sub. discriminate.
Defined.

(** X3.  [make_dir] succeeds exactly when the path names nothing and its
parent is a directory; then the path names an empty directory.  What lies
apart from the path is as before. *)
Theorem make_dir_makes_one_empty_directory :
  forall (es : fs) (p : path),
    (snd (make_dir es p) = None <->
     p <> [] /\ resolve es p = None /\
     exists siblings, resolve es (removelast p) = Some (Dir siblings)) /\
    (snd (make_dir es p) = None -> resolve (fst (make_dir es p)) p = Some (Dir dnil)) /\
    (forall q, apart p q -> resolve (fst (make_dir es p)) q = resolve es q).
Proof.
  intros es p. split; [apply make_dir_success|]. split.
  - apply make_dir_made.
  - intros q Hq. now apply make_dir_frame.
Qed.

Lemma make_dir_makes_one_empty_directory_witness :
  resolve (fst (make_dir used_workspace [s["home"]; s["build"]])) [s["home"]; s["build"]]
  = Some (Dir dnil).
Proof.
  apply (proj1 (proj2 (make_dir_makes_one_empty_directory
                         used_workspace [s["home"]; s["build"]]))).
  reflexivity.
Defined.

(** X4.  When [make_dir] raises, the file system is as before.  It raises
[FileExistsError] when the path names anything.  When the parent of the
path is no directory, because it names nothing, a regular file or
something else, it raises [FileNotFoundError] or [NotADirectoryError]. *)
Theorem make_dir_failure_changes_nothing :
  forall (es : fs) (p : path),
    (forall e, snd (make_dir es p) = Some e -> fst (make_dir es p) = es) /\
    (forall n, resolve es p = Some n -> make_dir es p = (es, Some FileExistsError)) /\
    ((forall siblings, resolve es (removelast p) <> Some (Dir siblings)) ->
     make_dir es p = (es, Some FileNotFoundError) \/
     make_dir es p = (es, Some NotADirectoryError)).
Proof.
  intros es p. split; [|split].
  - intros e. apply make_dir_failure_unchanged.
  - intros n. apply make_dir_exists.
  - apply make_dir_parent_no_directory.
Qed.

Lemma make_dir_failure_changes_nothing_witness :
  make_dir used_workspace [s["home"]; s["pyhdlsim.py"]; s["work"]]
  = (used_workspace, Some FileNotFoundError) \/
  make_dir used_workspace [s["home"]; s["pyhdlsim.py"]; s["work"]]
  = (used_workspace, Some NotADirectoryError).
Proof.
  apply (proj2 (proj2 (make_dir_failure_changes_nothing
                         used_workspace [s["home"]; s["pyhdlsim.py"]; s["work"]]))).
  intros siblings. discriminate.
Defined.

(** X5.  When workspace setup returns without an exception, what lies
apart from the working directory is as before: its siblings and the files
of other directories are untouched. *)
Theorem workspace_setup_leaves_the_rest :
  forall (es : fs) (cwd q : path),
    snd (workspace_setup es cwd) = None ->
    apart cwd q ->
    resolve (fst (workspace_setup es cwd)) q = resolve es q.
Proof.
  intros es cwd q _ H. unfold workspace_setup.
  pose proof (remove_tree_frame cwd es q H) as R.
  destruct (remove_tree es cwd) as [es1 [e|]]; cbn [fst] in *; [exact R|].
  rewrite make_dir_frame by assumption. exact R.
Qed.

Lemma workspace_setup_leaves_the_rest_witness :
  resolve (fst (workspace_setup used_workspace [s["home"]; s["work"]]))
          [s["home"]; s["pyhdlsim.py"]]
  = resolve used_workspace [s["home"]; s["pyhdlsim.py"]].
Proof.
  apply (workspace_setup_leaves_the_rest used_workspace
           [s["home"]; s["work"]] [s["home"]; s["pyhdlsim.py"]]).
  - reflexivity.
  - split; intros [r Hr]; discriminate Hr.
Defined.

(** X6.  Workspace setup raises and changes nothing when the path names
something that is no directory ([FileExistsError] from [mkdir]), and when
the parent of the path is no directory, because it names nothing, a
regular file or something else ([FileNotFoundError] or
[NotADirectoryError]). *)
Theorem workspace_setup_refusals :
  forall (es : fs) (cwd : path),
    (forall n, resolve es cwd = Some n -> (forall sub, n <> Dir sub) ->
               workspace_setup es cwd = (es, Some FileExistsError)) /\
    ((forall siblings, resolve es (removelast cwd) <> Some (Dir siblings)) ->
     workspace_setup es cwd = (es, Some FileNotFoundError) \/
     workspace_setup es cwd = (es, Some NotADirectoryError)).
Proof.
  intros es cwd. split.
  - intros n Hn Hd. unfold workspace_setup.
    rewrite remove_tree_not_dir.
    + now apply make_dir_exists with n.
    + intros sub E. rewrite Hn in E. injection E as ->. now apply (Hd sub).
  - intros Hp. unfold workspace_setup.
    assert (Hc : forall sub, resolve es cwd <> Some (Dir sub)).
    { intros sub E. destruct cwd as [|nm p]; [now apply (Hp es)|].
      destruct (resolve_parent (nm :: p) es (Dir sub) ltac:(discriminate) E) as [sib Hs].
      now apply (Hp sib). }
    rewrite (remove_tree_not_dir cwd es Hc). now apply make_dir_parent_no_directory.
Qed.

Lemma workspace_setup_refusals_witness :
  workspace_setup used_workspace [s["home"]; s["pyhdlsim.py"]; s["work"]]
  = (used_workspace, Some FileNotFoundError) \/
  workspace_setup used_workspace [s["home"]; s["pyhdlsim.py"]; s["work"]]
  = (used_workspace, Some NotADirectoryError).
Proof.
  apply (proj2 (workspace_setup_refusals used_workspace
                  [s["home"]; s["pyhdlsim.py"]; s["work"]])).
  intros siblings. discriminate.
Defined.

(** ** The constructor *)

Section Constructor.
Import PyStr PyStrFacts.

Lemma known_runner nm :
  existsb (eqb nm) runner_names = true <-> In nm runner_names.
Proof.
  rewrite existsb_exists. split.
  - intros [x [Hx E]]. apply eqb_eq in E. now subst.
  - intros H. exists nm. split; [assumption | apply eqb_refl].
Qed.

Lemma workspace_setup_made es cwd es' :
  workspace_setup es cwd = (es', None) -> resolve es' cwd = Some (Dir dnil).
Proof.
  unfold workspace_setup. destruct (remove_tree es cwd) as [es1 [e|]]; [discriminate|].
  intros H. pose proof (make_dir_made cwd es1) as M. rewrite H in M. now apply M.
Qed.

End Constructor.

(** X7.  The constructor checks its arguments before it touches the file
system: when the working directory is the directory of the module itself,
or the tool name is none of [icarus], [modelsim], [vivado], it raises
[ValueError] and nothing is removed or created. *)
Theorem Simulator_init_checks_first :
  forall (install_dir : path) (tool : str) (g : bool) (dir : path) (es : fs),
    install_dir = dir \/ ~ In tool runner_names ->
    exists msg,
      Simulator_init install_dir tool g dir es = (es, inl (ValueError msg)).
Proof.
  intros install_dir tool g dir es H. unfold Simulator_init.
  destruct (list_eq_dec (list_eq_dec ascii_dec) install_dir dir) as [E|E];
    [eexists; reflexivity|].
  destruct H as [H|H]; [contradiction|].
  destruct (existsb (PyStr.eqb tool) runner_names) eqn:R.
  - exfalso. apply H. now apply known_runner.
  - eexists. reflexivity.
Qed.

Lemma Simulator_init_checks_first_witness :
  exists msg,
    Simulator_init [s["home"]] s["verilator"] false [s["home"]; s["work"]] used_workspace
    = (used_workspace, inl (ValueError msg)).
Proof.
  apply (Simulator_init_checks_first
           [s["home"]] s["verilator"] false [s["home"]; s["work"]] used_workspace).
  right. intros [H|[H|[H|[]]]]; discriminate H.
Defined.

(** X8.  Whenever the constructor returns an object, the tool name is one
of the three runners, the working directory is not the directory of the
module, it exists and is empty, and the object has the default names
[worklib] and [top], empty lists of sources, defines, parameters and
include directories, and the four markers. *)
Theorem Simulator_init_result :
  forall (install_dir : path) (tool : str) (g : bool) (dir : path) (es es' : fs)
         (self : Simulator),
    Simulator_init install_dir tool g dir es = (es', inr self) ->
    install_dir <> dir /\
    In tool runner_names /\
    resolve es' dir = Some (Dir dnil) /\
    name self = tool /\ gui self = g /\ cwd self = dir /\
    worklib self = s["worklib"] /\ top self = s["top"] /\
    sources self = [] /\ defines self = [] /\ params self = [] /\ incdirs self = [] /\
    retcode self = 0%Z /\ sim_errors self = fixed_markers.
Proof.
  intros install_dir tool g dir es es' self. unfold Simulator_init.
  destruct (list_eq_dec (list_eq_dec ascii_dec) install_dir dir) as [E|E];
    [discriminate|].
  destruct (existsb (PyStr.eqb tool) runner_names) eqn:R; [|discriminate].
  cbn [negb]. destruct (workspace_setup es dir) as [es1 [e|]] eqn:W; [discriminate|].
  intros [= <- <-]. split; [assumption|]. split; [now apply known_runner|].
  split; [now apply workspace_setup_made with es|]. now repeat split.
Qed.

Lemma Simulator_init_result_witness :
  resolve (fst (Simulator_init [s["home"]] s["icarus"] false
                  [s["home"]; s["work"]] used_workspace))
          [s["home"]; s["work"]]
  = Some (Dir dnil).
Proof.
  eapply (Simulator_init_result [s["home"]] s["icarus"] false [s["home"]; s["work"]]
            used_workspace _ _).
  reflexivity.
Defined.

(** ** The outcomes of the process runner *)

Section RunnerOutcomes.
Import PyStr PyStrFacts.

Variable self : Simulator.

(** The loop ends without an exception and without a kill, or it kills
the child and raises for a read in whose line a marker occurs. *)
Lemma read_loop_ends rs :
  (failure (read_loop self rs) = None /\ killed (read_loop self rs) = false) \/
  (killed (read_loop self rs) = true /\
   exists r err,
     In r rs /\ In err (sim_errors self) /\ occurs_in err (line_of r) /\
     failure (read_loop self rs)
     = Some (AssertionError (remove_all err (line_of r)) (defines self))).
Proof.
  induction rs as [|[raw exited] rs IH]; [now left|].
  cbn [read_loop]. destruct (eqb (strip raw) [] && exited); [now left|].
  destruct (find (fun err => contains err (strip raw)) (sim_errors self))
    as [err|] eqn:E.
  - right. split; [reflexivity|]. apply find_some in E. destruct E as [Hin Hc].
    exists (raw, exited), err. split; [now left|]. split; [assumption|].
    split; [now apply contains_spec | reflexivity].
  - unfold loop_next; cbn [failure killed].
    destruct IH as [IH | [Hk [r [err [Hr H]]]]]; [now left|].
    right. split; [assumption|]. exists r, err. split; [now right | exact H].
Qed.

Lemma echo_of_cons r rs :
  echo_of (r :: rs)
  = match line_of r with [] => echo_of rs | _ => line_of r :: echo_of rs end.
Proof. unfold echo_of. simpl. now destruct (line_of r). Qed.

(** The reads are counted, the last one included, and the lines of all
but the last one are echoed. *)
Lemma read_loop_echo rs :
  1 <= consumed (read_loop self rs) /\
  consumed (read_loop self rs) <= S (List.length rs) /\
  echoed (read_loop self rs)
  = echo_of (firstn (consumed (read_loop self rs) - 1) rs).
Proof.
  induction rs as [|[raw exited] rs [I1 [I2 I3]]]; [simpl; repeat split; lia|].
  cbn [read_loop]. destruct (eqb (strip raw) [] && exited);
    [simpl; repeat split; lia|].
  destruct (find (fun err => contains err (strip raw)) (sim_errors self));
    [simpl; repeat split; lia|].
  unfold loop_next; cbn [consumed echoed]. split; [lia|]. split; [simpl; lia|].
  replace (S (consumed (read_loop self rs)) - 1)
    with (S (consumed (read_loop self rs) - 1)) by lia.
  cbn [firstn]. rewrite echo_of_cons. change (line_of (raw, exited)) with (strip raw).
  rewrite I3. reflexivity.
Qed.

End RunnerOutcomes.

(** X9.  What each way that [_exec] can end tells.  When it returns
normally, the exit code is 0, it is stored in [self.retcode] and the child
was not killed.  When it raises [RuntimeError], the error carries the
command and the exit code, the code is not 0, it is stored in
[self.retcode] and the child was not killed.  When it raises
[AssertionError], the error carries [self.defines], the child was killed,
[self] is as before, and a marker occurs in a line of the child: the error
carries that line without the marker. *)
Theorem exec_outcome_tells :
  forall (self : Simulator) (prog args : str) (c : child),
    (raised (Simulator_exec self prog args c) = None ->
     returncode c = 0%Z /\
     self_after (Simulator_exec self prog args c) = set_retcode self 0 /\
     child_killed (Simulator_exec self prog args c) = false) /\
    (forall cmd rc,
        raised (Simulator_exec self prog args c) = Some (RuntimeError cmd rc) ->
        cmd = exec_command self prog args /\ rc = returncode c /\ rc <> 0%Z /\
        self_after (Simulator_exec self prog args c) = set_retcode self rc /\
        child_killed (Simulator_exec self prog args c) = false) /\
    (forall out defs,
        raised (Simulator_exec self prog args c) = Some (AssertionError out defs) ->
        defs = defines self /\
        child_killed (Simulator_exec self prog args c) = true /\
        self_after (Simulator_exec self prog args c) = self /\
        exists r err,
          In r (reads c) /\ In err (sim_errors self) /\ occurs_in err (line_of r) /\
          out = PyStr.remove_all err (line_of r)).
Proof.
  intros self prog args c. unfold Simulator_exec, exec_command.
  destruct (read_loop_ends self (reads c)) as [[Hf Hk] | [Hk [r [err [Hr [He [Ho Hf]]]]]]];
    rewrite Hf; cbn [raised self_after child_killed].
  - destruct (returncode c =? 0)%Z eqn:E.
    + apply Z.eqb_eq in E. rewrite E. split; [now repeat split|].
      split; intros; discriminate.
    + apply Z.eqb_neq in E. split; [discriminate|]. split; [|intros; discriminate].
      intros cmd rc [= <- <-]. now repeat split.
  - split; [discriminate|]. split; [intros; discriminate|].
    intros out defs [= <- <-]. split; [reflexivity|]. split; [assumption|].
    split; [reflexivity|]. exists r, err. now repeat split.
Qed.

Lemma exec_outcome_tells_witness :
  returncode (silent_child 0) = 0%Z /\
  self_after (Simulator_exec (configured s["icarus"] [] [] [] [])
                s["vvp"] s["worklib.vvp -lxt2"] (silent_child 0))
  = set_retcode (configured s["icarus"] [] [] [] []) 0 /\
  child_killed (Simulator_exec (configured s["icarus"] [] [] [] [])
                  s["vvp"] s["worklib.vvp -lxt2"] (silent_child 0))
  = false.
Proof.
  apply (proj1 (exec_outcome_tells (configured s["icarus"] [] [] [] [])
                  s["vvp"] s["worklib.vvp -lxt2"] (silent_child 0))).
  reflexivity.
Defined.

(** X10.  The console shows the command and then, in order, the lines of
the reads that came before the read on which the loop ended, stripped and
without the empty ones; the line of the read on which the loop ended, the
one with the marker for instance, is not shown.  The loop reads at least
once, and at most once after the reads that the child serves. *)
Theorem exec_console_is_the_echo :
  forall (self : Simulator) (prog args : str) (c : child),
    1 <= lines_read (Simulator_exec self prog args c) /\
    lines_read (Simulator_exec self prog args c) <= S (List.length (reads c)) /\
    console (Simulator_exec self prog args c)
    = (prog ++ s[" "] ++ args)
      :: echo_of (firstn (lines_read (Simulator_exec self prog args c) - 1) (reads c)).
Proof.
  intros self prog args c.
  destruct (read_loop_echo self (reads c)) as [H1 [H2 H3]].
  unfold Simulator_exec.
  destruct (failure (read_loop self (reads c)));
    cbn [lines_read console]; rewrite H3; now repeat split.
Qed.

(** ** Runs *)

Section Runs.
Import PyStr PyStrFacts.

Variable spawn : command -> child.

Lemma set_retcode_same self : set_retcode self (retcode self) = self.
Proof. now destruct self. Qed.

Lemma exec_changes_retcode_only self prog args c :
  exists rc, self_after (Simulator_exec self prog args c) = set_retcode self rc.
Proof.
  unfold Simulator_exec. destruct (failure (read_loop self (reads c))).
  - exists (retcode self). cbn [self_after]. now rewrite set_retcode_same.
  - now exists (returncode c).
Qed.

Lemma exec_step_changes_retcode_only prog args r :
  exists rc, sim (exec_step spawn prog args r) = set_retcode (sim r) rc.
Proof.
  unfold exec_step. destruct (error r).
  - exists (retcode (sim r)). now rewrite set_retcode_same.
  - cbn [sim]. apply exec_changes_retcode_only.
Qed.

Lemma exec_returns_zero self prog args c :
  raised (Simulator_exec self prog args c) = None ->
  retcode (self_after (Simulator_exec self prog args c)) = 0%Z.
Proof.
  unfold Simulator_exec. destruct (failure (read_loop self (reads c)));
    cbn [raised self_after]; [discriminate|].
  destruct (returncode c =? 0)%Z eqn:E; [|discriminate].
  intros _. now apply Z.eqb_eq in E.
Qed.

Lemma exec_step_returns prog args r :
  error (exec_step spawn prog args r) = None ->
  error r = None /\ retcode (sim (exec_step spawn prog args r)) = 0%Z.
Proof.
  unfold exec_step. destruct (error r) as [e|] eqn:E.
  - rewrite E. discriminate.
  - cbn [error sim]. intros H. split; [reflexivity | now apply exec_returns_zero].
Qed.

Lemma exec_raises_from_exec self prog args c :
  from_exec (raised (Simulator_exec self prog args c)).
Proof.
  unfold Simulator_exec, from_exec.
  destruct (read_loop_ends self (reads c)) as [[Hf _] | [_ [r [err [_ [_ [_ Hf]]]]]]];
    rewrite Hf; cbn [raised].
  - destruct (returncode c =? 0)%Z eqn:E; [now left|].
    right. right. apply Z.eqb_neq in E. eauto.
  - right. left. eauto.
Qed.

Lemma exec_step_from_exec prog args r :
  from_exec (error r) -> from_exec (error (exec_step spawn prog args r)).
Proof.
  intros H. unfold exec_step. destruct (error r) eqn:E; [now rewrite E|].
  cbn [error]. apply exec_raises_from_exec.
Qed.

Lemma get_define_app nm l l' :
  get_define nm (l ++ l')
  = match get_define nm l with
    | Some v => Some v
    | None => get_define nm l'
    end.
Proof.
  unfold get_define. induction l as [|d l IH]; [reflexivity|].
  simpl. destruct (contains nm d); [reflexivity | exact IH].
Qed.

End Runs.

(** An attribute other than [retcode] is the same after a step. *)
Ltac through_exec_step :=
  match goal with
  | |- context [sim (exec_step ?sp ?p ?a ?r)] =>
      let rc := fresh "rc" in
      let E := fresh "E" in
      destruct (exec_step_changes_retcode_only sp p a r) as [rc E];
      rewrite E; clear E; cbn [set_retcode defines sources incdirs params name top
                                worklib gui cwd sim_errors]
  end.

(** X11.  The lookup in a list that is made of two parts looks in the
first part first: a define of the first part hides every define of the
second part in which the name occurs as well. *)
Theorem get_define_looks_left_first :
  forall (nm : str) (l l' : list str),
    get_define nm (l ++ l')
    = match get_define nm l with
      | Some v => Some v
      | None => get_define nm l'
      end.
Proof. intros nm l l'. apply get_define_app. Qed.

(** X12.  [run] adds [TOP_NAME=<top>] and [SIM] at the end of the defines
and changes nothing else of them, whatever the tool does.  Afterwards the
lookup of [SIM] finds a value, every define that the caller could look up
before gives the same value, and the lookup of [TOP_NAME] gives the top
module when no define of the caller holds [TOP_NAME] and the name of the
top module holds no [=]. *)
Theorem run_adds_two_defines :
  forall (spawn : command -> child) (resolve_path : str -> str) (self : Simulator),
    defines (sim (Simulator_run spawn resolve_path self))
    = defines self ++ run_defines self /\
    (exists v, Simulator_get_define (sim (Simulator_run spawn resolve_path self)) s["SIM"]
               = Some v) /\
    (forall nm v,
        Simulator_get_define self nm = Some v ->
        Simulator_get_define (sim (Simulator_run spawn resolve_path self)) nm = Some v) /\
    ((forall d, In d (defines self) -> ~ occurs_in s["TOP_NAME"] d) ->
     ~ In "="%char (top self) ->
     Simulator_get_define (sim (Simulator_run spawn resolve_path self)) s["TOP_NAME"]
     = Some (top self)).
Proof.
  intros spawn resolve_path self.
  assert (D : defines (sim (Simulator_run spawn resolve_path self))
              = defines self ++ run_defines self).
  { unfold Simulator_run. cbn [name].
    destruct (PyStr.eqb (name self) s["icarus"]);
      [|destruct (PyStr.eqb (name self) s["modelsim"]);
        [|destruct (PyStr.eqb (name self) s["vivado"]); [|reflexivity]]].
    - unfold Simulator_run_icarus. cbn [gui].
      destruct (gui self); repeat through_exec_step; reflexivity.
    - unfold Simulator_run_modelsim. repeat through_exec_step. reflexivity.
    - unfold Simulator_run_vivado. repeat through_exec_step. reflexivity. }
  split; [exact D|]. unfold Simulator_get_define. rewrite D.
  split; [|split].
  - rewrite get_define_app.
    destruct (get_define s["SIM"] (defines self)) as [v|]; [now exists v|].
    unfold run_defines, get_define. cbn [find].
    destruct (PyStr.contains s["SIM"] (s["TOP_NAME="] ++ top self)); eexists; reflexivity.
  - intros nm v H. rewrite get_define_app. now rewrite H.
  - intros Hd Ht. rewrite get_define_app.
    assert (N : get_define s["TOP_NAME"] (defines self) = None)
      by now apply get_define_none.
    rewrite N. unfold run_defines, get_define. cbn [find].
    change (PyStr.contains s["TOP_NAME"] (s["TOP_NAME="] ++ top self)) with true.
    cbn iota. f_equal. apply PyStrFacts.last_split_on_spec.
    split; [assumption|]. right. now exists s["TOP_NAME"].
Qed.

Lemma run_adds_two_defines_witness :
  Simulator_get_define
    (sim (Simulator_run (fun _ => silent_child 0) (fun p => p)
            (configured s["icarus"] [s["/rtl/dut.sv"]] [s["WIDTH=8"]] [] [])))
    s["TOP_NAME"]
  = Some s["top"].
Proof.
  apply (proj2 (proj2 (proj2 (run_adds_two_defines
           (fun _ => silent_child 0) (fun p => p)
           (configured s["icarus"] [s["/rtl/dut.sv"]] [s["WIDTH=8"]] [] []))))).
  - intros d [<-|[]]. apply PyStrFacts.contains_false. reflexivity.
  - intros [H|[H|[H|[]]]]; discriminate H.
Defined.

(** X13.  When the elaboration by [iverilog] raises, the Icarus adapter
ends with that exception: [vvp] and [gtkwave] are not started, and the
console shows the two header lines and what the elaboration printed. *)
Theorem icarus_stops_at_a_failed_elaboration :
  forall (spawn : command -> child) (self : Simulator) (e : exn),
    raised (Simulator_exec self s["iverilog"] (icarus_elab_args self)
              (spawn (exec_command self s["iverilog"] (icarus_elab_args self))))
    = Some e ->
    error (Simulator_run_icarus spawn self) = Some e /\
    effects (Simulator_run_icarus spawn self)
    = [ Print (s["Run Icarus (cwd="] ++ path_str (cwd self) ++ s[")"]);
        Print (PyStr.join s[" "] (defines self)) ]
      ++ map Print
           (console (Simulator_exec self s["iverilog"] (icarus_elab_args self)
                       (spawn (exec_command self s["iverilog"] (icarus_elab_args self))))).
Proof.
  intros spawn self e H. unfold Simulator_run_icarus.
  set (r0 := begin_run self _).
  assert (E1 : error (exec_step spawn s["iverilog"] (icarus_elab_args self) r0) = Some e)
    by exact H.
  assert (E2 : exec_step spawn s["vvp"] (worklib self ++ s[".vvp -lxt2"])
                 (exec_step spawn s["iverilog"] (icarus_elab_args self) r0)
               = exec_step spawn s["iverilog"] (icarus_elab_args self) r0).
  { unfold exec_step at 1. now rewrite E1. }
  assert (E3 : exec_step spawn s["gtkwave"] s["dump.vcd"]
                 (exec_step spawn s["iverilog"] (icarus_elab_args self) r0)
               = exec_step spawn s["iverilog"] (icarus_elab_args self) r0).
  { unfold exec_step at 1. now rewrite E1. }
  rewrite E2. destruct (gui self); rewrite ?E3; (split; [exact E1 | reflexivity]).
Qed.

Lemma icarus_stops_at_a_failed_elaboration_witness :
  error (Simulator_run_icarus (fun _ => silent_child 1)
           (configured s["icarus"] [s["/rtl/dut.sv"]] [] [] []))
  = Some (RuntimeError
            (CmdList [s["iverilog"]; s["-g2005-sv"]; s["-s"]; s["top"]; s["-o"];
                      s["worklib.vvp"]; s["/rtl/dut.sv"]])
            1).
Proof.
  apply (icarus_stops_at_a_failed_elaboration (fun _ => silent_child 1)
           (configured s["icarus"] [s["/rtl/dut.sv"]] [] [] [])).
  reflexivity.
Defined.

(** X14.  When [run], or one of the three adapters, returns without an
exception, [self.retcode] is 0: the last program that was started has
exited with code 0. *)
Theorem run_returns_with_retcode_zero :
  forall (spawn : command -> child) (resolve_path : str -> str) (self : Simulator),
    (error (Simulator_run_icarus spawn self) = None ->
     retcode (sim (Simulator_run_icarus spawn self)) = 0%Z) /\
    (error (Simulator_run_modelsim spawn self) = None ->
     retcode (sim (Simulator_run_modelsim spawn self)) = 0%Z) /\
    (error (Simulator_run_vivado spawn self) = None ->
     retcode (sim (Simulator_run_vivado spawn self)) = 0%Z) /\
    (error (Simulator_run spawn resolve_path self) = None ->
     retcode (sim (Simulator_run spawn resolve_path self)) = 0%Z).
Proof.
  intros spawn resolve_path self.
  assert (I : forall x, error (Simulator_run_icarus spawn x) = None ->
                        retcode (sim (Simulator_run_icarus spawn x)) = 0%Z).
  { intros x. unfold Simulator_run_icarus. destruct (gui x); intros H;
      now apply exec_step_returns in H. }
  assert (M : forall x, error (Simulator_run_modelsim spawn x) = None ->
                        retcode (sim (Simulator_run_modelsim spawn x)) = 0%Z).
  { intros x H. unfold Simulator_run_modelsim in *. now apply exec_step_returns in H. }
  assert (V : forall x, error (Simulator_run_vivado spawn x) = None ->
                        retcode (sim (Simulator_run_vivado spawn x)) = 0%Z).
  { intros x H. unfold Simulator_run_vivado in *. now apply exec_step_returns in H. }
  split; [apply I|]. split; [apply M|]. split; [apply V|].
  unfold Simulator_run. cbn [name].
  destruct (PyStr.eqb (name self) s["icarus"]); [apply I|].
  destruct (PyStr.eqb (name self) s["modelsim"]); [apply M|].
  destruct (PyStr.eqb (name self) s["vivado"]); [apply V | discriminate].
Qed.

Lemma run_returns_with_retcode_zero_witness :
  retcode (sim (Simulator_run (fun _ => silent_child 0) (fun p => p)
                  (configured s["vivado"] [s["/rtl/dut.sv"]] [] [] [])))
  = 0%Z.
Proof.
  apply (proj2 (proj2 (proj2 (run_returns_with_retcode_zero
           (fun _ => silent_child 0) (fun p => p)
           (configured s["vivado"] [s["/rtl/dut.sv"]] [] [] []))))).
  reflexivity.
Defined.

(** X15.  When [run] ends with [KeyError], the tool name is none of the
three runners, the error carries that name, and no program has been
started and nothing printed or written.  With one of the three names [run]
never ends with [KeyError]; the constructor lets no other name through. *)
Theorem run_key_error :
  forall (spawn : command -> child) (resolve_path : str -> str) (self : Simulator)
         (key : str),
    error (Simulator_run spawn resolve_path self) = Some (KeyError key) ->
    key = name self /\
    ~ In (name self) runner_names /\
    effects (Simulator_run spawn resolve_path self) = [].
Proof.
  intros spawn resolve_path self key.
  assert (K : forall e, from_exec e -> e <> Some (KeyError key)).
  { intros e [-> | [[out [defs ->]] | [cmd [rc [_ ->]]]]]; discriminate. }
  unfold Simulator_run. cbn [name].
  destruct (PyStr.eqb (name self) s["icarus"]) eqn:E1;
    [|destruct (PyStr.eqb (name self) s["modelsim"]) eqn:E2;
      [|destruct (PyStr.eqb (name self) s["vivado"]) eqn:E3]].
  - intros H. exfalso. revert H. apply K.
    unfold Simulator_run_icarus. cbn [gui].
    destruct (gui self); repeat apply exec_step_from_exec; now left.
  - intros H. exfalso. revert H. apply K.
    unfold Simulator_run_modelsim. apply exec_step_from_exec. now left.
  - intros H. exfalso. revert H. apply K.
    unfold Simulator_run_vivado. apply exec_step_from_exec. now left.
  - cbn [error effects]. intros [= <-]. split; [reflexivity|]. split; [|reflexivity].
    intros [H|[H|[H|[]]]]; symmetry in H;
      apply PyStrFacts.eqb_eq in H; congruence.
Qed.

Lemma run_key_error_witness :
  s["verilator"] = name (configured s["verilator"] [s["/rtl/dut.sv"]] [] [] []) /\
  ~ In (name (configured s["verilator"] [s["/rtl/dut.sv"]] [] [] [])) runner_names /\
  effects (Simulator_run (fun _ => silent_child 0) (fun p => p)
             (configured s["verilator"] [s["/rtl/dut.sv"]] [] [] []))
  = [].
Proof.
  apply (run_key_error (fun _ => silent_child 0) (fun p => p)
           (configured s["verilator"] [s["/rtl/dut.sv"]] [] [] []) s["verilator"]).
  reflexivity.
Defined.

(** ** The extension of a file name *)

Section FileExt.
Import PyStr PyStrFacts.

Lemma split_on_app_sep sep v :
  forall p, split_on sep (p ++ sep :: v) = split_on sep p ++ split_on sep v.
Proof.
  induction p as [|c p IH]; simpl.
  - now rewrite Ascii.eqb_refl.
  - destruct (Ascii.eqb c sep); [now rewrite IH|].
    rewrite IH. pose proof (split_on_nonempty sep p) as Hne.
    destruct (split_on sep p); [congruence | reflexivity].
Qed.

Lemma path_name_last dir nm :
  nm <> [] -> nm <> s["."] -> ~ In "/"%char nm ->
  path_name (dir ++ "/"%char :: nm) = nm.
Proof.
  intros H1 H2 H3. unfold path_name, parse_path.
  rewrite split_on_app_sep, (split_on_without "/" nm H3), filter_app.
  cbn [filter].
  assert (E1 : eqb nm [] = false) by now apply eqb_neq.
  assert (E2 : eqb nm s["."] = false) by now apply eqb_neq.
  rewrite E1, E2. cbn [negb andb]. apply last_last.
Qed.

Lemma rfind_absent c : forall v, ~ In c v -> rfind c v = None.
Proof.
  induction v as [|x v IH]; intros H; [reflexivity|].
  simpl. rewrite IH by (intros Hin; apply H; now right).
  destruct (Ascii.eqb x c) eqn:E; [|reflexivity].
  apply Ascii.eqb_eq in E. exfalso. apply H. now left.
Qed.

Lemma rfind_last c v :
  ~ In c v -> forall p, rfind c (p ++ c :: v) = Some (List.length p).
Proof.
  intros H. induction p as [|x p IH]; simpl.
  - now rewrite (rfind_absent c v H), Ascii.eqb_refl.
  - now rewrite IH.
Qed.

Lemma skipn_length_app (p v : str) : skipn (List.length p) (p ++ v) = v.
Proof. induction p as [|x p IH]; [reflexivity | exact IH]. Qed.

Lemma path_suffix_dotted base ext :
  base <> [] -> ext <> [] -> ~ In "."%char ext ->
  path_suffix (base ++ "."%char :: ext) = "."%char :: ext.
Proof.
  intros Hb He Hd. unfold path_suffix. rewrite (rfind_last "." ext Hd).
  rewrite length_app. cbn [List.length].
  destruct base as [|b base]; [congruence|]. destruct ext as [|x ext]; [congruence|].
  replace ((0 <? List.length (b :: base))
           && (List.length (b :: base)
               <? List.length (b :: base) + S (List.length (x :: ext)) - 1))
    with true.
  - apply skipn_length_app.
  - symmetry. apply andb_true_iff. split; apply Nat.ltb_lt; simpl; lia.
Qed.

Lemma not_in_app (c : ascii) (a b : str) : ~ In c a -> ~ In c b -> ~ In c (a ++ b).
Proof. intros Ha Hb H. apply in_app_or in H. tauto. Qed.

End FileExt.

(** X16.  For a path that ends in a file name [<base>.<ext>], where the
extension is not empty and holds no dot, [file_ext] gives [.<ext>]
whatever the directories before it are.  A name that starts with its only
dot (a hidden file) and a name without a dot have the extension ['']. *)
Theorem file_ext_of_a_file_name :
  forall (dir base ext : str),
    ~ In "/"%char base -> ~ In "/"%char ext ->
    ext <> [] -> ~ In "."%char ext ->
    (base <> [] -> file_ext (dir ++ "/"%char :: base ++ "."%char :: ext) = "."%char :: ext) /\
    file_ext (dir ++ "/"%char :: "."%char :: ext) = [] /\
    file_ext (dir ++ "/"%char :: ext) = [].
Proof.
  intros dir base ext Hb He Hne Hd. split; [|split].
  - intros Hbase. unfold file_ext. rewrite path_name_last.
    + now apply path_suffix_dotted.
    + destruct base; discriminate.
    + destruct base as [|b [|b' base]]; [congruence | | discriminate].
      destruct ext; [congruence | discriminate].
    + apply not_in_app; [assumption|]. intros [H|H]; [discriminate | contradiction].
  - unfold file_ext. rewrite path_name_last.
    + unfold path_suffix.
      pose proof (rfind_last "." ext Hd []) as R.
      change ([] ++ "."%char :: ext) with ("."%char :: ext) in R.
      rewrite R. reflexivity.
    + discriminate.
    + destruct ext; [congruence | discriminate].
    + intros [H|H]; [discriminate | contradiction].
  - unfold file_ext. rewrite path_name_last.
    + unfold path_suffix. now rewrite rfind_absent.
    + assumption.
    + intros ->. apply Hd. now left.
    + assumption.
Qed.

Lemma file_ext_of_a_file_name_witness :
  file_ext (s["/home/user/rtl.d"] ++ "/"%char :: s["top.tb"] ++ "."%char :: s["sv"])
  = "."%char :: s["sv"].
Proof.
  apply (file_ext_of_a_file_name s["/home/user/rtl.d"] s["top.tb"] s["sv"]).
  - intros H. simpl in H. repeat (destruct H as [H|H]; [discriminate H|]). exact H.
  - intros H. simpl in H. repeat (destruct H as [H|H]; [discriminate H|]). exact H.
  - discriminate.
  - intros H. simpl in H. repeat (destruct H as [H|H]; [discriminate H|]). exact H.
  - discriminate.
Defined.

(** ** The compile lines of the generated files *)

Section CompileLines.
Import PyStr PyStrFacts.

Lemma concat_map_if (keep : str -> bool) (line : str -> str) :
  forall l,
    concat (map (fun x => if keep x then line x else []) l)
    = concat (map line (filter keep l)).
Proof.
  induction l as [|x l IH]; [reflexivity|].
  simpl. destruct (keep x); simpl; now rewrite IH.
Qed.

Lemma modelsim_line_verilog defs incs src :
  modelsim_line defs incs src
  = if verilog_source src then modelsim_vlog_line defs incs src else [].
Proof.
  unfold modelsim_line, verilog_source. cbn [existsb].
  rewrite orb_false_r, orb_comm. reflexivity.
Qed.

End CompileLines.

(** X17.  The compile block of the ModelSim script is one [vlog] line for
each source with the extension [.sv] or [.v], in the order of the source
list, each with all defines and include directories; every other source,
VHDL included, adds nothing. *)
Theorem modelsim_sources_are_the_verilog_lines :
  forall (self : Simulator),
    modelsim_sources self
    = concat (map (modelsim_vlog_line (modelsim_defines self) (modelsim_incdirs self))
                  (filter verilog_source (sources self))).
Proof.
  intros self. rewrite modelsim_sources_lines, <- concat_map_if.
  f_equal. apply map_ext. intros src. apply modelsim_line_verilog.
Qed.

(** X18.  The project file of the Vivado adapter is one line for each
source with the extension [.sv] or [.v], in the order of the source list:
[sv work <path>] or [verilog work <path>]; every other source, VHDL
included, adds nothing. *)
Theorem vivado_prj_is_the_verilog_lines :
  forall (self : Simulator),
    vivado_prj self = concat (map vivado_line (filter verilog_source (sources self))).
Proof.
  intros self. rewrite vivado_prj_lines, <- concat_map_if. reflexivity.
Qed.

(** ** The memory file *)

Section MemFileLines.

Lemma sep_split_unique (c : ascii) :
  forall a b r1 r2,
    ~ In c a -> ~ In c b -> a ++ c :: r1 = b ++ c :: r2 -> a = b /\ r1 = r2.
Proof.
  induction a as [|x a IH]; intros [|y b] r1 r2 Ha Hb H; simpl in H.
  - injection H as <-. now split.
  - injection H as <- _. exfalso. apply Hb. now left.
  - injection H as -> _. exfalso. apply Ha. now left.
  - injection H as <- H. destruct (IH b r1 r2) as [-> ->]; try assumption.
    + intros Hin. apply Ha. now right.
    + intros Hin. apply Hb. now right.
    + now split.
Qed.

Lemma hex_digits_without c : ~ lower_hex_digit c -> forall n, ~ In c (hex_of_N n).
Proof.
  intros Hc n Hin. destruct (hex_of_N_notation n) as [_ [F _]].
  rewrite Forall_forall in F. apply Hc. now apply F.
Qed.

Lemma format_x_without c :
  ~ lower_hex_digit c -> c <> "-"%char -> forall d, ~ In c (format_x d).
Proof.
  intros Hc Hm d. unfold format_x. destruct (d <? 0)%Z.
  - intros [H|H]; [congruence | now apply (hex_digits_without c Hc) in H].
  - now apply hex_digits_without.
Qed.

Lemma LF_no_digit : ~ lower_hex_digit LF.
Proof.
  unfold lower_hex_digit. simpl. intros H.
  repeat (destruct H as [H|H]; [discriminate H|]). exact H.
Qed.

Lemma minus_no_digit : ~ lower_hex_digit "-"%char.
Proof.
  unfold lower_hex_digit. simpl. intros H.
  repeat (destruct H as [H|H]; [discriminate H|]). exact H.
Qed.

Lemma hex_of_N_injective n m : hex_of_N n = hex_of_N m -> n = m.
Proof.
  intros H. destruct (hex_of_N_notation n) as [_ [_ Pn]].
  destruct (hex_of_N_notation m) as [_ [_ Pm]]. rewrite H in Pn. congruence.
Qed.

Lemma hex_of_N_no_minus n rest : hex_of_N n <> "-"%char :: rest.
Proof.
  intros H. apply (hex_digits_without "-" minus_no_digit n). rewrite H. now left.
Qed.

Lemma format_x_injective a b : format_x a = format_x b -> a = b.
Proof.
  unfold format_x.
  destruct (a <? 0)%Z eqn:Ea; destruct (b <? 0)%Z eqn:Eb; intros H.
  - injection H as H. apply hex_of_N_injective in H.
    apply Z.ltb_lt in Ea, Eb. lia.
  - symmetry in H. now apply hex_of_N_no_minus in H.
  - now apply hex_of_N_no_minus in H.
  - apply hex_of_N_injective in H. apply Z.ltb_ge in Ea, Eb. lia.
Qed.

Lemma memfile_lines_injective :
  forall d1 d2, concat (memfile_lines d1) = concat (memfile_lines d2) -> d1 = d2.
Proof.
  induction d1 as [|a d1 IH]; intros [|b d2] H; [reflexivity | | |].
  - simpl in H. rewrite <- app_assoc in H. destruct (format_x b); discriminate.
  - simpl in H. rewrite <- app_assoc in H. destruct (format_x a); discriminate.
  - simpl in H. rewrite <- !app_assoc in H. simpl in H.
    apply sep_split_unique in H.
    + destruct H as [Hx Hr]. apply format_x_injective in Hx. apply IH in Hr. congruence.
    + apply format_x_without; [apply LF_no_digit | discriminate].
    + apply format_x_without; [apply LF_no_digit | discriminate].
Qed.

Lemma count_occ_absent c (l : str) : ~ In c l -> count_occ ascii_dec l c = 0.
Proof. apply count_occ_not_In. Qed.

Lemma memfile_line_count :
  forall data, count_occ ascii_dec (concat (memfile_lines data)) LF = List.length data.
Proof.
  induction data as [|d data IH]; [reflexivity|].
  simpl. rewrite !count_occ_app, IH.
  rewrite count_occ_absent
    by (apply format_x_without; [apply LF_no_digit | discriminate]).
  reflexivity.
Qed.

End MemFileLines.

(** X19.  The memory file has exactly one line feed per value, negative
values included, and the file determines the data: two lists of values
that give the same file are the same list. *)
Theorem write_memfile_is_injective :
  forall (filepath : str) (d1 d2 : list Z),
    (write_memfile filepath d1 = write_memfile filepath d2 -> d1 = d2) /\
    (exists content,
        write_memfile filepath d1 = WriteFile (parse_path filepath) content /\
        count_occ ascii_dec content LF = List.length d1).
Proof.
  intros filepath d1 d2. split.
  - unfold write_memfile. intros [= H]. now apply memfile_lines_injective.
  - eexists. split; [reflexivity | apply memfile_line_count].
Qed.

Lemma write_memfile_is_injective_witness :
  exists content,
    write_memfile s["rom.mem"] [(-1)%Z; 0%Z; 255%Z]
    = WriteFile (parse_path s["rom.mem"]) content /\
    count_occ ascii_dec content LF = 3.
Proof.
  apply (proj2 (write_memfile_is_injective s["rom.mem"] [(-1)%Z; 0%Z; 255%Z] [])).
Defined.

(** ** The words of a command *)

Section CommandWords.
Import PyStr PyStrFacts.

Lemma split_go_app_space b :
  forall a cur, split_go cur (a ++ " "%char :: b) = split_go cur a ++ split_go [] b.
Proof.
  induction a as [|c a IH]; intros cur.
  - simpl. now destruct cur.
  - simpl. destruct (is_space c).
    + destruct cur; rewrite IH; reflexivity.
    + apply IH.
Qed.

Lemma is_word_rev cur :
  cur <> [] -> Forall (fun c => is_space c = false) cur -> is_word (rev cur).
Proof.
  intros Hne H. split.
  - intros E. apply Hne. apply (f_equal (@rev ascii)) in E.
    now rewrite rev_involutive in E.
  - apply Forall_forall. intros c Hc. apply in_rev in Hc.
    rewrite Forall_forall in H. now apply H.
Qed.

Lemma split_go_words :
  forall s cur, Forall (fun c => is_space c = false) cur ->
                Forall is_word (split_go cur s).
Proof.
  induction s as [|c s IH]; intros cur H.
  - simpl. destruct cur as [|x cur]; [constructor|].
    constructor; [|constructor]. apply is_word_rev; [discriminate | assumption].
  - simpl. destruct (is_space c) eqn:E.
    + destruct cur as [|x cur]; [now apply IH|].
      constructor; [|now apply IH].
      apply is_word_rev; [discriminate | assumption].
    + apply IH. now constructor.
Qed.

End CommandWords.

(** X20.  For a tool other than [vivado] the first argument that [_exec]
hands to [Popen] is a list of words: the words of the program name, then
the words of the argument string.  No word is empty and none holds white
space, so a path or a define with a blank in it is in the list as several
words.  For [vivado] the argument is the one string, blanks and quotes
kept. *)
Theorem exec_command_words :
  forall (self : Simulator) (prog args : str),
    (name self <> s["vivado"] ->
     exec_command self prog args = CmdList (PyStr.split prog ++ PyStr.split args) /\
     Forall is_word (PyStr.split prog ++ PyStr.split args)) /\
    (name self = s["vivado"] ->
     exec_command self prog args = CmdString (prog ++ s[" "] ++ args)).
Proof.
  intros self prog args. unfold exec_command. split.
  - intros H. apply PyStrFacts.eqb_neq in H. rewrite H. split.
    + f_equal. apply split_go_app_space.
    + apply Forall_app. split; apply split_go_words; constructor.
  - intros ->. reflexivity.
Qed.

Lemma exec_command_words_witness :
  exec_command (configured s["icarus"] [] [] [] []) s["iverilog"]
               s["-D MSG=hello world  /my files/top.sv"]
  = CmdList [s["iverilog"]; s["-D"]; s["MSG=hello"]; s["world"]; s["/my"]; s["files/top.sv"]].
Proof.
  apply (proj1 (exec_command_words (configured s["icarus"] [] [] [] []) s["iverilog"]
                  s["-D MSG=hello world  /my files/top.sv"])).
  discriminate.
Defined.
